(** * Test orchestrator: bounded-concurrency execution start

    A shallow embedding of the TypeScript services of the repository
    (src/services/configService.ts, containerService.ts and
    orchestrationService.ts) and the properties of its specification.

    Conventions of the embedding.
    - A JavaScript string is a [string]: each [ascii] stands for one code
      unit in the range 0..255 (the Latin-1 part of UTF-16).  The signs
      outside that range in the fixed log texts are kept as the bytes of
      their UTF-8 form; no operation below inspects them.
    - A JavaScript number is a [JsNum]: NaN, the two infinities, or a finite
      value carried as an exact rational.  Rounding of long decimal literals
      to binary64 is not modelled; every literal used below is a dyadic
      rational that binary64 holds exactly.
    - [T | undefined] is [option T]; a thrown value is a [Thrown].
    - Code that logs, draws random identifiers, reads the clock or calls the
      remote control plane runs in the monad [M] over an explicit [World].
      The logger is the typed one: its methods record a line and return.
    - An asynchronous call is split where it suspends; which suspended lane
      of the scheduler continues next is decided by a schedule, an arbitrary
      function of the step number. *)

From Stdlib Require Import ZArith QArith Qminmax Lia List Bool Ascii String.
From Stdlib Require Import DecimalString.
From stdpp Require Import base list strings gmap.
Import ListNotations.

Local Open Scope string_scope.
Local Open Scope Z_scope.

(** ** JavaScript string primitives *)

Module JsString.

(** [WhiteSpace] and [LineTerminator] code units below 256: TAB, LF, VT,
    FF, CR, SP and NBSP.  [String.prototype.trim] strips exactly these. *)
Definition isWhiteSpace (c : ascii) : bool :=
  let n := nat_of_ascii c in
  ((9 <=? n)%nat && (n <=? 13)%nat) || (n =? 32)%nat || (n =? 160)%nat.

Fixpoint trimStart (s : string) : string :=
  match s with
  | EmptyString => EmptyString
  | String c s' => if isWhiteSpace c then trimStart s' else s
  end.

(** [trimEnd] drops the maximal suffix of white space: a character is
    kept when it is not white space or when something is kept after it. *)
Fixpoint trimEnd (s : string) : string :=
  match s with
  | EmptyString => EmptyString
  | String c s' =>
      match trimEnd s' with
      | EmptyString => if isWhiteSpace c then EmptyString else String c EmptyString
      | t => String c t
      end
  end.

Definition trim (s : string) : string := trimEnd (trimStart s).

(** A string is truthy when it is not empty. *)
Definition truthy (s : string) : bool :=
  match s with EmptyString => false | _ => true end.

Fixpoint startsWith (p s : string) : bool :=
  match p, s with
  | EmptyString, _ => true
  | String a p', String b s' => Ascii.eqb a b && startsWith p' s'
  | String _ _, EmptyString => false
  end.

(** [s.includes(p)] *)
Fixpoint includes (p s : string) : bool :=
  startsWith p s ||
  match s with
  | EmptyString => false
  | String _ s' => includes p s'
  end.

(** [s.lastIndexOf(c)] for a one-character pattern; -1 when absent. *)
Fixpoint lastIndexOf (c : ascii) (s : string) : Z :=
  match s with
  | EmptyString => -1
  | String a s' =>
      let r := lastIndexOf c s' in
      if 0 <=? r then r + 1
      else if Ascii.eqb a c then 0 else -1
  end.

(** [s.slice(n)] for a start index [n >= 0]. *)
Fixpoint drop (n : nat) (s : string) : string :=
  match n, s with
  | O, _ => s
  | S n', String _ s' => drop n' s'
  | S _, EmptyString => EmptyString
  end.

Definition slice (s : string) (start : Z) : string := drop (Z.to_nat start) s.

(** [s.split(sep)] for a one-character separator: always at least one
    piece, the empty string splits into one empty piece. *)
Fixpoint split (sep : ascii) (s : string) : list string :=
  match s with
  | EmptyString => [EmptyString]
  | String c s' =>
      if Ascii.eqb c sep then EmptyString :: split sep s'
      else match split sep s' with
           | [] => [String c EmptyString]
           | p :: ps => String c p :: ps
           end
  end.

Definition lowerChar (c : ascii) : ascii :=
  let n := nat_of_ascii c in
  if ((65 <=? n)%nat && (n <=? 90)%nat)
     || ((192 <=? n)%nat && (n <=? 222)%nat && negb (n =? 215)%nat)
  then ascii_of_nat (n + 32) else c.

Fixpoint toLowerCase (s : string) : string :=
  match s with
  | EmptyString => EmptyString
  | String c s' => String (lowerChar c) (toLowerCase s')
  end.

(** [c] occurs in [s]. *)
Fixpoint contains (c : ascii) (s : string) : bool :=
  match s with
  | EmptyString => false
  | String a s' => Ascii.eqb a c || contains c s'
  end.


End JsString.

(** ** JavaScript numbers *)

Module JsNumber.

Inductive JsNum : Type :=
| NaN
| PInf
| NInf
| Fin (q : Q).

Definition ofZ (z : Z) : JsNum := Fin (inject_Z z).
Definition ofNat (n : nat) : JsNum := ofZ (Z.of_nat n).

(** [Math.max(a, b)] and [Math.min(a, b)]: NaN is contagious. *)
Definition max (a b : JsNum) : JsNum :=
  match a, b with
  | NaN, _ | _, NaN => NaN
  | PInf, _ | _, PInf => PInf
  | NInf, x | x, NInf => x
  | Fin p, Fin q => Fin (if Qle_bool p q then q else p)
  end.

Definition min (a b : JsNum) : JsNum :=
  match a, b with
  | NaN, _ | _, NaN => NaN
  | NInf, _ | _, NInf => NInf
  | PInf, x | x, PInf => x
  | Fin p, Fin q => Fin (if Qle_bool p q then p else q)
  end.

Definition isNaN (a : JsNum) : bool :=
  match a with NaN => true | _ => false end.

Definition isFinite (a : JsNum) : bool :=
  match a with Fin _ => true | _ => false end.

(** [Number.isInteger(a)] *)
Definition isInteger (a : JsNum) : bool :=
  match a with
  | Fin q => Pos.eqb (Qden (Qred q)) 1
  | _ => false
  end.

(** The length check of [new Array(n)]: a RangeError unless [n] is a
    non-negative integer.  The upper bound 2^32 - 1 of the check is left
    out: every argument below is at most the length of an existing array. *)
Definition arrayLength (a : JsNum) : option nat :=
  match a with
  | Fin q =>
      if isInteger a && (0 <=? Qnum q)%Z then Some (Z.to_nat (Qnum (Qred q)))
      else None
  | _ => None
  end.

(** *** [Number(s)]: the StringToNumber grammar *)

Definition digitValue (c : ascii) : option Z :=
  let n := Z.of_nat (nat_of_ascii c) in
  if (48 <=? n) && (n <=? 57) then Some (n - 48)
  else if (97 <=? n) && (n <=? 122) then Some (n - 87)
  else if (65 <=? n) && (n <=? 90) then Some (n - 55)
  else None.

(** Reads the longest prefix of digits of the radix: the value
    accumulated from [acc], the number of digits read, and the rest. *)
Fixpoint readDigits (radix : Z) (s : string) (acc : Z) (n : nat)
  : Z * nat * string :=
  match s with
  | EmptyString => (acc, n, s)
  | String c s' =>
      match digitValue c with
      | Some d =>
          if d <? radix then readDigits radix s' (acc * radix + d) (S n)
          else (acc, n, s)
      | None => (acc, n, s)
      end
  end.

Definition isChar (c : ascii) (a b : ascii) : bool :=
  Ascii.eqb c a || Ascii.eqb c b.

Definition readSign (s : string) : bool * string :=
  match s with
  | String c s' =>
      if Ascii.eqb c "-" then (true, s')
      else if Ascii.eqb c "+" then (false, s')
      else (false, s)
  | EmptyString => (false, s)
  end.

(** What follows the mantissa: nothing, or a complete ExponentPart. *)
Definition parseExponent (s : string) : option Z :=
  match s with
  | EmptyString => Some 0
  | String c s' =>
      if isChar c "e" "E" then
        let '(neg, s'') := readSign s' in
        let '(v, n, rest) := readDigits 10 s'' 0 0 in
        if (0 <? n)%nat && negb (JsString.truthy rest)
        then Some (if neg then - v else v) else None
      else None
  end.

(** StrUnsignedDecimalLiteral without Infinity: the decimal mantissa and
    the power of ten that scales it. *)
Definition parseUnsignedDecimal (s : string) : option (Z * Z) :=
  let '(a, n1, r1) := readDigits 10 s 0 0 in
  let '(b, n2, r2) :=
    match r1 with
    | String c t => if Ascii.eqb c "." then readDigits 10 t a 0 else (a, O, r1)
    | EmptyString => (a, O, r1)
    end in
  if (n1 + n2 =? 0)%nat then None
  else match parseExponent r2 with
       | Some e => Some (b, e - Z.of_nat n2)
       | None => None
       end.

Definition decimalValue (m e : Z) : Q :=
  if 0 <=? e then inject_Z (m * 10 ^ e)
  else Qred (Qmake m (Z.to_pos (10 ^ (- e)))).

(** Magnitudes from 2^1024 - 2^970 on round to an infinity. *)
Definition overflow : Q := inject_Z (2 ^ 1024 - 2 ^ 970).

Definition ofQ (q : Q) : JsNum :=
  if Qle_bool overflow q then PInf
  else if Qle_bool q (- overflow) then NInf
  else Fin q.

Definition parseRadix (radix : Z) (digits : string) : JsNum :=
  let '(v, n, rest) := readDigits radix digits 0 0 in
  if (0 <? n)%nat && negb (JsString.truthy rest) then ofQ (inject_Z v) else NaN.

Definition Number (s : string) : JsNum :=
  let t := JsString.trim s in
  if negb (JsString.truthy t) then Fin 0
  else if JsString.startsWith "0x" t || JsString.startsWith "0X" t
  then parseRadix 16 (JsString.drop 2 t)
  else if JsString.startsWith "0o" t || JsString.startsWith "0O" t
  then parseRadix 8 (JsString.drop 2 t)
  else if JsString.startsWith "0b" t || JsString.startsWith "0B" t
  then parseRadix 2 (JsString.drop 2 t)
  else
    let '(neg, u) := readSign t in
    if String.eqb u "Infinity" then (if neg then NInf else PInf)
    else match parseUnsignedDecimal u with
         | Some (m, e) =>
             let q := decimalValue m e in ofQ (if neg then Qred (- q) else q)
         | None => NaN
         end.

(** *** [parseFloat(s)]: the longest prefix that is a StrDecimalLiteral *)

(** The value of an ExponentPart at the head of [s]; 0 when there is no
    complete one, which leaves the mantissa as it is. *)
Definition readExponent (s : string) : Z :=
  match s with
  | String c s' =>
      if isChar c "e" "E" then
        let '(neg, s'') := readSign s' in
        let '(v, n, _) := readDigits 10 s'' 0 0 in
        if (0 <? n)%nat then (if neg then - v else v) else 0
      else 0
  | EmptyString => 0
  end.

(** Leading white space is skipped, what follows the literal is ignored,
    and NaN is returned when no prefix is a literal. *)
Definition parseFloat (s : string) : JsNum :=
  let t := JsString.trimStart s in
  let '(neg, u) := readSign t in
  if JsString.startsWith "Infinity" u then (if neg then NInf else PInf)
  else
    let '(a, n1, r1) := readDigits 10 u 0 0 in
    let '(b, n2, r2) :=
      match r1 with
      | String c t' => if Ascii.eqb c "." then readDigits 10 t' a 0 else (a, O, r1)
      | EmptyString => (a, O, r1)
      end in
    if (n1 + n2 =? 0)%nat then NaN
    else
      let q := decimalValue b (readExponent r2 - Z.of_nat n2) in
      ofQ (if neg then Qred (- q) else q).

End JsNumber.

Export JsNumber(JsNum, NaN, PInf, NInf, Fin).

(** ** Thrown values and fallible pure code *)

(** What a [throw] carries: an [Error] object with its message, or any
    other value with its [String(...)] rendering. *)
Inductive Thrown : Type :=
| JsError (message : string)
| JsValue (rendered : string).

(** [err instanceof Error ? err.message : String(err)] *)
Definition errorText (t : Thrown) : string :=
  match t with
  | JsError m => m
  | JsValue s => s
  end.

Module Exc.
Definition t (A : Type) : Type := (Thrown + A)%type.
Definition ret {A} (a : A) : t A := inr a.
Definition throw {A} (e : Thrown) : t A := inl e.
Definition bind {A B} (c : t A) (k : A -> t B) : t B :=
  match c with
  | inl e => inl e
  | inr a => k a
  end.
Definition tryCatch {A} (body : t A) (handler : Thrown -> t A) : t A :=
  match body with
  | inl e => handler e
  | inr a => inr a
  end.
End Exc.

Declare Scope exc_scope.
Delimit Scope exc_scope with exc.
Notation "x <- c ;; k" := (Exc.bind c (fun x => k))
  (at level 100, c at next level, right associativity) : exc_scope.

(** ** Shared types (src/types) *)

(** One matrix cell. *)
Record TestConfig : Type := mkTestConfig {
  env : string;
  platform : string;
}.

Record VNetConfig : Type := {
  enabled : bool;
  vnetName : string;
  subnetResourceId : option string;
  subnetName : option string;
  internalOnly : bool;
}.

(** [runnerEnv] is a plain object used as a map; it is carried as the
    list [Object.entries] enumerates, in that order. *)
Record ContainerConfig : Type := {
  image : option string;
  cpu : JsNum;
  memoryGB : JsNum;
  network : option VNetConfig;
  runnerEnv : option (list (string * string));
}.

Record JobExecutionResult : Type := {
  jobName : string;
  executionName : string;
  executionId : option string;
  config : TestConfig;
  success : bool;
  error : option string;
  startedAt : option string;
}.

(** [a || b] on an optional string: the first truthy operand. *)
Definition orElse (a : option string) (b : string) : string :=
  match a with
  | Some s => if JsString.truthy s then s else b
  | None => b
  end.

(** [a || b] where [b] may be undefined as well. *)
Definition orElseOpt (a b : option string) : option string :=
  match a with
  | Some s => if JsString.truthy s then a else b
  | None => b
  end.

(** ** ConfigService *)

Module ConfigService.

(** The setting App Configuration returns for a key. *)
Record ConfigurationSetting : Type := {
  key : string;
  value : option string;
}.

(** [client.getConfigurationSetting({ key })]: a setting, or a throw. *)
Definition AppConfigClient : Type := string -> Exc.t ConfigurationSetting.

(** [process.env] *)
Abbreviation ProcessEnv := (gmap string string).

Section WithSources.

Variable client : AppConfigClient.
Variable processEnv : ProcessEnv.

(** [s.split(",").map(e => e.trim()).filter(Boolean)] *)
Definition parseList (s : string) : list string :=
  List.filter JsString.truthy (List.map JsString.trim (JsString.split "," s)).

(** [environments.flatMap(env => platforms.map(platform => ({ env, platform })))] *)
Definition crossProduct (environments platforms : list string) : list TestConfig :=
  List.flat_map
    (fun env => List.map (fun platform => mkTestConfig env platform) platforms)
    environments.

Definition getTestMatrixFromAppConfig : Exc.t (list TestConfig) :=
  Exc.tryCatch
    (envSetting <- client "TestMatrix:Environments" ;;
     platformSetting <- client "TestMatrix:Platforms" ;;
     let environments :=
       parseList (orElse (orElseOpt (value envSetting)
                                    (processEnv !! "TEST_ENVIRONMENTS"))
                         "prod,stage,qa") in
     let platforms :=
       parseList (orElse (orElseOpt (value platformSetting)
                                    (processEnv !! "TEST_PLATFORMS"))
                         "web,mobile") in
     Exc.ret (crossProduct environments platforms))%exc
    (fun _ =>
       let environments :=
         parseList (orElse (processEnv !! "TEST_ENVIRONMENTS") "prod,stage,qa") in
       let platforms :=
         parseList (orElse (processEnv !! "TEST_PLATFORMS") "web,mobile") in
       Exc.ret (crossProduct environments platforms)).

Definition getTestMatrix : Exc.t (list TestConfig) :=
  getTestMatrixFromAppConfig.

(** [safeGet(key)]: the setting, or undefined when the read throws. *)
Definition safeGet (k : string) : option ConfigurationSetting :=
  match client k with
  | inr setting => Some setting
  | inl _ => None
  end.

(** [setting?.value] *)
Definition settingValue (setting : option ConfigurationSetting) : option string :=
  match setting with
  | Some st => value st
  | None => None
  end.

Definition clamp (n : JsNum) : JsNum :=
  JsNumber.max (JsNumber.ofZ 1) (JsNumber.min (JsNumber.ofZ 25) n).

Definition getConcurrencyLimit (defaultValue : JsNum) : JsNum :=
  let fromEnv :=
    let envRaw := JsString.trim (orElse (processEnv !! "ORCH_CONCURRENCY_LIMIT") EmptyString) in
    if JsString.truthy envRaw then
      let parsed := JsNumber.Number envRaw in
      if negb (JsNumber.isNaN parsed) && JsNumber.isFinite parsed
      then clamp parsed
      else clamp defaultValue
    else clamp defaultValue in
  let setting := safeGet "Orchestration:ConcurrencyLimit" in
  let raw := JsString.trim (orElse (settingValue setting) EmptyString) in
  if JsString.truthy raw then
    let parsed := JsNumber.Number raw in
    if negb (JsNumber.isNaN parsed) && JsNumber.isFinite parsed
    then clamp parsed
    else fromEnv
  else fromEnv.

(** The default of the parameter: [getConcurrencyLimit(defaultValue = 10)]. *)
Definition getConcurrencyLimitDefault : JsNum :=
  getConcurrencyLimit (JsNumber.ofZ 10).

Definition getContainerAppsJobName : Exc.t string :=
  let fromEnv : Exc.t string :=
    let envValue := JsString.trim (orElse (processEnv !! "CONTAINERAPPS_JOB_NAME") EmptyString) in
    if negb (JsString.truthy envValue)
    then Exc.throw (JsError
           "Missing CONTAINERAPPS_JOB_NAME (or App Config key ContainerApps:JobName)")
    else Exc.ret envValue in
  let setting := safeGet "ContainerApps:JobName" in
  let v := JsString.trim (orElse (settingValue setting) EmptyString) in
  if JsString.truthy v then Exc.ret v else fromEnv.

End WithSources.

(** *** The passthrough map, RUNNER_ENV_PASSTHROUGH *)

(** A value of [JSON.parse].  A number carries its [String(n)] text; an
    object carries its entries in [Object.entries] order. *)
#[warnings="-register-all"]
Inductive Json : Type :=
| JNull
| JBool (b : bool)
| JNum (text : string)
| JStr (s : string)
| JArr (items : list Json)
| JObj (fields : list (string * Json)).

Definition joinWith (sep : string) (parts : list string) : string :=
  match parts with
  | [] => EmptyString
  | p :: ps => List.fold_left (fun acc x => acc ++ sep ++ x) ps p
  end.

(** [String(val)] *)
Fixpoint jsonToString (v : Json) : string :=
  match v with
  | JNull => "null"
  | JBool true => "true"
  | JBool false => "false"
  | JNum text => text
  | JStr s => s
  | JArr items =>
      joinWith ","
        (List.map (fun x => match x with JNull => EmptyString | _ => jsonToString x end) items)
  | JObj _ => "[object Object]"
  end.

Definition isAlpha_ (c : ascii) : bool :=
  let n := nat_of_ascii c in
  ((65 <=? n) && (n <=? 90) || (97 <=? n) && (n <=? 122) || (n =? 95))%nat.

Definition isAlnum_ (c : ascii) : bool :=
  let n := nat_of_ascii c in
  isAlpha_ c || ((48 <=? n) && (n <=? 57))%nat.

Fixpoint allChars (p : ascii -> bool) (s : string) : bool :=
  match s with
  | EmptyString => true
  | String c s' => p c && allChars p s'
  end.

(** [/^[A-Za-z_][A-Za-z0-9_]*$/.test(name)] *)
Definition isValidEnvVarName (name : string) : bool :=
  match name with
  | EmptyString => false
  | String c rest => isAlpha_ c && allChars isAlnum_ rest
  end.

(** [obj[key]] on the entries of an object. *)
Fixpoint objGet (obj : list (string * string)) (k : string) : option string :=
  match obj with
  | [] => None
  | (k', v) :: rest => if String.eqb k' k then Some v else objGet rest k
  end.

Fixpoint objPut (obj : list (string * string)) (k v : string) : list (string * string) :=
  match obj with
  | [] => [(k, v)]
  | (k', v') :: rest =>
      if String.eqb k' k then (k', v) :: rest else (k', v') :: objPut rest k v
  end.

(** [obj[key] = v] on an object created by [{}]: an existing key keeps its
    place, a new key goes last; the inherited accessor [__proto__]
    discards a string. *)
Definition objSet (obj : list (string * string)) (k v : string) : list (string * string) :=
  if String.eqb k "__proto__" then obj else objPut obj k v.

Definition snoc {A} (l : list A) (x : A) : list A := (l ++ [x])%list.

Definition reserved : list string := ["ENV"; "ENV_LABEL"; "PLATFORM"; "RUN_ID"].

Definition isReserved (k : string) : bool :=
  List.existsb (String.eqb k) reserved.

(** The loop over [Object.entries(parsedObj)]: the map built so far and
    the console warnings, oldest first. *)
Fixpoint collectPassthrough (entries : list (string * Json))
         (out : list (string * string)) (warns : list string)
  : list (string * string) * list string :=
  match entries with
  | [] => (out, warns)
  | (k, val) :: rest =>
      if negb (isValidEnvVarName k) then
        collectPassthrough rest out
          (snoc warns ("RUNNER_ENV_PASSTHROUGH: ignoring invalid env var key '" ++ k ++ "'"))
      else if isReserved k then
        collectPassthrough rest out
          (snoc warns ("RUNNER_ENV_PASSTHROUGH: '" ++ k ++ "' is reserved and will be ignored"))
      else
        collectPassthrough rest
          (objSet out k (match val with JNull => EmptyString | _ => jsonToString val end))
          warns
  end.

(** The double-quote character. *)
Definition dq : string := String (ascii_of_nat 34) EmptyString.

Section Passthrough.

Variable JSON_parse : string -> Exc.t Json.
Variable processEnv : ProcessEnv.

Definition getRunnerEnvPassthroughMap : Exc.t (list (string * string) * list string) :=
  let orchestratorEndpoint :=
    JsString.trim (orElse (processEnv !! "APP_CONFIG_ENDPOINT") EmptyString) in
  if negb (JsString.truthy orchestratorEndpoint)
  then Exc.throw (JsError "Missing required environment variable: APP_CONFIG_ENDPOINT")
  else
    let raw := JsString.trim (orElse (processEnv !! "RUNNER_ENV_PASSTHROUGH") EmptyString) in
    (parsedObj <-
       (if JsString.truthy raw then
          parsed <- Exc.tryCatch (JSON_parse raw)
                      (fun _ => Exc.throw (JsError
                         ("RUNNER_ENV_PASSTHROUGH must be a valid JSON object. Example: {"
                          ++ dq ++ "PW_WORKERS" ++ dq ++ ":" ++ dq ++ "5" ++ dq ++ ","
                          ++ dq ++ "SUITE" ++ dq ++ ":" ++ dq ++ "smoke" ++ dq ++ "}"))) ;;
          match parsed with
          | JObj fields => Exc.ret fields
          | _ => Exc.throw (JsError
                   "RUNNER_ENV_PASSTHROUGH must be a JSON object (key/value map).")
          end
        else Exc.ret []) ;;
     let '(out, warns) := collectPassthrough parsedObj [] [] in
     match objGet out "APP_CONFIG_ENDPOINT" with
     | Some e =>
         if negb (JsString.truthy e) then
           Exc.ret (objSet out "APP_CONFIG_ENDPOINT" orchestratorEndpoint,
                    snoc warns ("RUNNER_ENV_PASSTHROUGH: APP_CONFIG_ENDPOINT missing -> injecting orchestrator APP_CONFIG_ENDPOINT"))
         else if negb (String.eqb e orchestratorEndpoint) then
           Exc.ret (objSet out "APP_CONFIG_ENDPOINT" orchestratorEndpoint,
                    snoc warns ("RUNNER_ENV_PASSTHROUGH: APP_CONFIG_ENDPOINT differs from orchestrator endpoint -> overriding to orchestrator APP_CONFIG_ENDPOINT"))
         else Exc.ret (out, warns)
     | None =>
         Exc.ret (objSet out "APP_CONFIG_ENDPOINT" orchestratorEndpoint,
                  snoc warns ("RUNNER_ENV_PASSTHROUGH: APP_CONFIG_ENDPOINT missing -> injecting orchestrator APP_CONFIG_ENDPOINT"))
     end)%exc.

End Passthrough.

(** *** The constructor, the network intent and the container settings *)

(** [new ConfigService()]: fails fast without an endpoint, then creates
    the client for it; [newClient] is the SDK's constructor. *)
Definition constructor (newClient : string -> Exc.t AppConfigClient)
           (processEnv : ProcessEnv) : Exc.t AppConfigClient :=
  let endpoint := JsString.trim (orElse (processEnv !! "APP_CONFIG_ENDPOINT") EmptyString) in
  if negb (JsString.truthy endpoint)
  then Exc.throw (JsError "Missing required environment variable: APP_CONFIG_ENDPOINT")
  else newClient endpoint.

(** [a ?? b]: the right operand only when the left one is undefined. *)
Definition nullish (a b : option string) : option string :=
  match a with
  | Some _ => a
  | None => b
  end.

Definition parseBool (value : option string) (defaultValue : bool) : bool :=
  match value with
  | None => defaultValue
  | Some s =>
      let v := JsString.toLowerCase (JsString.trim s) in
      if String.eqb v "true" || String.eqb v "1" || String.eqb v "yes" || String.eqb v "y"
      then true
      else if String.eqb v "false" || String.eqb v "0" || String.eqb v "no"
              || String.eqb v "n"
      then false
      else defaultValue
  end.

Section ContainerConfiguration.

Variable client : AppConfigClient.
Variable JSON_parse : string -> Exc.t Json.
Variable processEnv : ProcessEnv.

(** [safeGet] does not throw and nothing else in the [try] can, so the
    [catch] and the statements after it are never reached. *)
Definition getNetworkConfig : VNetConfig :=
  let defaultVnetName := "Isrotel-Automation-Resources-vnets" in
  let enabledSetting := safeGet client "Network:Enabled" in
  let vnetNameSetting := safeGet client "Network:VnetName" in
  let subnetIdSetting := safeGet client "Network:SubnetResourceId" in
  let subnetNameSetting := safeGet client "Network:SubnetName" in
  let internalOnlySetting := safeGet client "Network:InternalOnly" in
  {| enabled :=
       parseBool (nullish (settingValue enabledSetting)
                          (processEnv !! "NETWORK_ENABLED")) true;
     vnetName :=
       JsString.trim
         (orElse (orElseOpt (settingValue vnetNameSetting)
                            (processEnv !! "NETWORK_VNET_NAME"))
                 defaultVnetName);
     subnetResourceId :=
       orElseOpt (settingValue subnetIdSetting)
                 (processEnv !! "NETWORK_SUBNET_RESOURCE_ID");
     subnetName :=
       orElseOpt (settingValue subnetNameSetting) (processEnv !! "NETWORK_SUBNET_NAME");
     internalOnly :=
       parseBool (nullish (settingValue internalOnlySetting)
                          (processEnv !! "NETWORK_INTERNAL_ONLY")) false |}.

(** The settings without [network] and [runnerEnv], which are left
    undefined here; as above the [catch] is never reached. *)
Definition getContainerConfigBase : ContainerConfig :=
  let imageSetting := safeGet client "Container:Image" in
  let cpuSetting := safeGet client "Container:CPU" in
  let memorySetting := safeGet client "Container:MemoryGB" in
  let image :=
    JsString.trim
      (orElse (orElseOpt (settingValue imageSetting) (processEnv !! "CONTAINER_IMAGE"))
              EmptyString) in
  {| image := if JsString.truthy image then Some image else None;
     cpu :=
       JsNumber.parseFloat
         (orElse (orElseOpt (settingValue cpuSetting) (processEnv !! "CONTAINER_CPU"))
                 "1.0");
     memoryGB :=
       JsNumber.parseFloat
         (orElse (orElseOpt (settingValue memorySetting)
                            (processEnv !! "CONTAINER_MEMORY_GB"))
                 "2.0");
     network := None;
     runnerEnv := None |}.

(** The configuration, and the console warnings of the passthrough map. *)
Definition getContainerConfig : Exc.t (ContainerConfig * list string) :=
  let base := getContainerConfigBase in
  let network := getNetworkConfig in
  (passthrough <- getRunnerEnvPassthroughMap JSON_parse processEnv ;;
   let '(runnerEnv, warns) := passthrough in
   Exc.ret ({| image := image base;
               cpu := cpu base;
               memoryGB := memoryGB base;
               network := if enabled network then Some network else None;
               runnerEnv := match runnerEnv with
                            | [] => None
                            | _ :: _ => Some runnerEnv
                            end |},
            warns))%exc.

End ContainerConfiguration.

End ConfigService.

(** ** The world the services act on *)

(** One [{ name, value }] entry of an execution's environment. *)
Record EnvVar : Type := mkEnvVar {
  name : string;
  value : string;
}.

(** The container of the template override passed to the start call. *)
Record ContainerOverride : Type := {
  containerName : string;
  containerImage : string;
  resourcesCpu : JsNum;
  resourcesMemory : string;
  containerEnv : list EnvVar;
}.

(** One call [client.jobs.beginStartAndWait(resourceGroup, jobName, ...)]. *)
Record StartCall : Type := {
  callResourceGroup : string;
  callJobName : string;
  callContainer : ContainerOverride;
}.

(** What a start call resolves to. *)
Record JobExecution : Type := {
  executionBaseName : option string;
  executionBaseId : option string;
}.

Inductive LogEntry : Type :=
| LogLine (text : string)
| WarnLine (text : string)
| ErrorLine (text : string) (err : Thrown).

(** Everything the services observe but do not compute: the remote
    control plane, the random source, the clock, the process environment
    and the number formatting built into the language.  The n-th use of a
    source is answered by that source at [n]. *)
Record Host : Type := {
  beginStartAndWait : nat -> StartCall -> Exc.t JobExecution;
  randomUUID : nat -> string;
  dateNow : nat -> Z;
  toISOString : Z -> string;
  numberToString : JsNum -> string;
  numberToFixed : nat -> JsNum -> string;
  processEnv : gmap string string;
  resourceGroup : string;
}.

(** The effects so far: logger output and start calls, oldest first, and
    how often the random source and the clock were used. *)
Record World : Type := {
  logs : list LogEntry;
  calls : list StartCall;
  draws : nat;
  reads : nat;
}.

Definition emptyWorld : World :=
  {| logs := []; calls := []; draws := 0; reads := 0 |}.

(** A computation returns, throws, or is cut off by the step bound of the
    scheduler loop. *)
Inductive Outcome (A : Type) : Type :=
| Returned (a : A) (w : World)
| Raised (e : Thrown) (w : World)
| OutOfFuel.

Arguments Returned {A} a w.
Arguments Raised {A} e w.
Arguments OutOfFuel {A}.

Definition M (A : Type) : Type := World -> Outcome A.

Module Eff.

Definition ret {A} (a : A) : M A := fun w => Returned a w.

Definition throw {A} (e : Thrown) : M A := fun w => Raised e w.

Definition bind {A B} (c : M A) (k : A -> M B) : M B :=
  fun w =>
    match c w with
    | Returned a w' => k a w'
    | Raised e w' => Raised e w'
    | OutOfFuel => OutOfFuel
    end.

(** [try { body } catch (err) { handler }] *)
Definition tryCatch {A} (body : M A) (handler : Thrown -> M A) : M A :=
  fun w =>
    match body w with
    | Returned a w' => Returned a w'
    | Raised e w' => handler e w'
    | OutOfFuel => OutOfFuel
    end.

Definition lift {A} (c : Exc.t A) : M A :=
  match c with
  | inl e => throw e
  | inr a => ret a
  end.

Definition emit (entry : LogEntry) : M unit :=
  fun w =>
    Returned tt {| logs := (logs w ++ [entry])%list; calls := calls w;
                   draws := draws w; reads := reads w |}.

Definition log (text : string) : M unit := emit (LogLine text).
Definition warn (text : string) : M unit := emit (WarnLine text).
Definition error (text : string) (err : Thrown) : M unit := emit (ErrorLine text err).

Section WithHost.
Variable host : Host.

(** [randomUUID()] *)
Definition drawUUID : M string :=
  fun w =>
    Returned (randomUUID host (draws w))
             {| logs := logs w; calls := calls w;
                draws := S (draws w); reads := reads w |}.

(** [Date.now()] *)
Definition readClock : M Z :=
  fun w =>
    Returned (dateNow host (reads w))
             {| logs := logs w; calls := calls w;
                draws := draws w; reads := S (reads w) |}.

(** [new Date().toISOString()] *)
Definition isoNow : M string :=
  bind readClock (fun t => ret (toISOString host t)).

(** Issues a start call: the call is recorded and numbered; its
    settlement comes later, from [awaitCall]. *)
Definition issueCall (c : StartCall) : M (nat * StartCall) :=
  fun w =>
    Returned (List.length (calls w), c)
             {| logs := logs w; calls := (calls w ++ [c])%list;
                draws := draws w; reads := reads w |}.

(** How the awaited call settles. *)
Definition awaitCall (p : nat * StartCall) : Exc.t JobExecution :=
  beginStartAndWait host (fst p) (snd p).

End WithHost.

End Eff.

Declare Scope eff_scope.
Delimit Scope eff_scope with eff.
Notation "x <- c ;; k" := (Eff.bind c (fun x => k))
  (at level 100, c at next level, right associativity) : eff_scope.
Notation "c ;;; k" := (Eff.bind c (fun _ => k))
  (at level 100, right associativity) : eff_scope.

(** [${n}] for a count *)
Definition showNat (n : nat) : string := NilEmpty.string_of_uint (Nat.to_uint n).

(** [${x}] for an optional string *)
Definition showOpt (o : option string) : string :=
  match o with
  | Some s => s
  | None => "undefined"
  end.

(** ** ContainerService *)

Module ContainerService.

Definition tryExtractImageTag (image : string) : option string :=
  let v := JsString.trim image in
  if negb (JsString.truthy v) then None
  else if JsString.includes "@" v then None
  else
    let lastSlash := JsString.lastIndexOf "/" v in
    let lastColon := JsString.lastIndexOf ":" v in
    if lastColon >? lastSlash then
      let tag := JsString.trim (JsString.slice v (lastColon + 1)) in
      if JsString.truthy tag then Some tag else None
    else None.

Definition requireTestAutomationRunnerImage (image : option string) : Exc.t string :=
  let v := JsString.trim (orElse image EmptyString) in
  if negb (JsString.truthy v) then
    Exc.throw (JsError
      ("Missing runner image. Set CONTAINER_IMAGE (or AppConfig key Container:Image). "
       ++ "Azure Job execution template override requires 'image' when specifying template.containers."))
  else Exc.ret v.

(** The names the orchestrator assigns itself. *)
Definition isReservedKey (n : string) : bool :=
  String.eqb n "ENV" || String.eqb n "ENV_LABEL" || String.eqb n "PLATFORM"
  || String.eqb n "RUN_ID" || String.eqb n "BUILD_NUMBER".

(** The loop over [Object.entries(runnerEnv)]. *)
Fixpoint pushRunnerEnv (entries : list (string * string)) (env : list EnvVar)
  : M (list EnvVar) :=
  match entries with
  | [] => Eff.ret env
  | (n, v) :: rest =>
      if isReservedKey n then
        (Eff.warn ("runnerEnv ignored reserved key '" ++ n ++ "'") ;;;
         pushRunnerEnv rest env)%eff
      else pushRunnerEnv rest (env ++ [mkEnvVar n v])%list
  end.

Section WithHost.

Variable host : Host.

Definition buildExecutionEnv (testConfig : TestConfig)
           (runnerEnv : option (list (string * string))) (image : string)
  : M (list EnvVar) :=
  (uuid <- Eff.drawUUID host ;;
   let env0 :=
     [ mkEnvVar "ENV" (env testConfig);
       mkEnvVar "ENV_LABEL" (env testConfig);
       mkEnvVar "PLATFORM" (platform testConfig);
       mkEnvVar "RUN_ID" (List.hd EmptyString (JsString.split "-" uuid)) ] in
   env1 <-
     match tryExtractImageTag image with
     | Some buildNumber =>
         if JsString.truthy buildNumber
         then Eff.ret (env0 ++ [mkEnvVar "BUILD_NUMBER" buildNumber])%list
         else (Eff.warn "BUILD_NUMBER not injected: could not derive tag from CONTAINER_IMAGE (missing tag or digest image)." ;;;
               Eff.ret env0)
     | None =>
         (Eff.warn "BUILD_NUMBER not injected: could not derive tag from CONTAINER_IMAGE (missing tag or digest image)." ;;;
          Eff.ret env0)
     end ;;
   match runnerEnv with
   | None => Eff.ret env1
   | Some entries => pushRunnerEnv entries env1
   end)%eff.

Definition quarter : JsNum := Fin (1 # 4).

Definition toGi (memoryGB : JsNum) : string :=
  let gb := JsNumber.max quarter memoryGB in
  let str := if JsNumber.isInteger gb then numberToFixed host 0 gb
             else numberToString host gb in
  str ++ "Gi".

(** The body of the [try] up to the start call being issued. *)
Definition prepare (jobName : string) (testConfig : TestConfig)
           (containerConfig : ContainerConfig) : M (nat * StartCall) :=
  (Eff.log ("Starting Job execution: " ++ jobName ++ " for "
            ++ env testConfig ++ "/" ++ platform testConfig) ;;;
   image <- Eff.lift (requireTestAutomationRunnerImage (image containerConfig)) ;;
   envList <- buildExecutionEnv testConfig (runnerEnv containerConfig) image ;;
   let containerName :=
     JsString.trim (orElse (processEnv host !! "RUNNER_CONTAINER_NAME") "test-executor") in
   Eff.issueCall
     {| callResourceGroup := resourceGroup host;
        callJobName := jobName;
        callContainer :=
          {| containerName := containerName;
             containerImage := image;
             resourcesCpu := cpu containerConfig;
             resourcesMemory := toGi (memoryGB containerConfig);
             containerEnv := envList |} |})%eff.

(** The body of the [try] from the settlement of the awaited call on. *)
Definition complete (jobName : string) (testConfig : TestConfig)
           (settled : Exc.t JobExecution) : M JobExecutionResult :=
  (execution <- Eff.lift settled ;;
   Eff.log ("✓ Execution started: " ++ showOpt (executionBaseName execution)) ;;;
   now <- Eff.isoNow host ;;
   Eff.ret {| jobName := jobName;
              executionName := orElse (executionBaseName execution) "unknown";
              executionId := executionBaseId execution;
              config := testConfig;
              success := true;
              error := None;
              startedAt := Some now |})%eff.

(** The [catch] block. *)
Definition recover (jobName : string) (testConfig : TestConfig) (err : Thrown)
  : M JobExecutionResult :=
  (Eff.error ("✗ Failed to start execution for " ++ env testConfig ++ "/"
              ++ platform testConfig ++ " (job=" ++ jobName ++ "):") err ;;;
   Eff.ret {| jobName := jobName;
              executionName := "unknown";
              executionId := None;
              config := testConfig;
              success := false;
              error := Some (errorText err);
              startedAt := None |})%eff.

Definition startTestExecution (jobName : string) (testConfig : TestConfig)
           (containerConfig : ContainerConfig) : M JobExecutionResult :=
  Eff.tryCatch
    (pending <- prepare jobName testConfig containerConfig ;;
     complete jobName testConfig (Eff.awaitCall host pending))%eff
    (recover jobName testConfig).

(** *** The same function as the scheduler sees it

    A call runs to its [await] (or to its end, when the [try] body
    throws before) and is resumed when the awaited start call settles. *)

Inductive Pending : Type :=
| Settled (r : JobExecutionResult)
| InFlight (jobName : string) (testConfig : TestConfig) (call : nat * StartCall).

Definition dispatch (jobName : string) (containerConfig : ContainerConfig)
           (testConfig : TestConfig) : M Pending :=
  Eff.tryCatch
    (pending <- prepare jobName testConfig containerConfig ;;
     Eff.ret (InFlight jobName testConfig pending))%eff
    (fun err => r <- recover jobName testConfig err ;; Eff.ret (Settled r))%eff.

Definition settle (p : Pending) : M JobExecutionResult :=
  match p with
  | Settled r => Eff.ret r
  | InFlight jobName testConfig call =>
      Eff.tryCatch (complete jobName testConfig (Eff.awaitCall host call))
                   (recover jobName testConfig)
  end.

End WithHost.

End ContainerService.

(** ** OrchestrationService *)

Module OrchestrationService.

(** The ConfigService the orchestrator is constructed with: what each of
    the four methods it awaits resolves to. *)
Record ConfigServiceI : Type := {
  getTestMatrix : Exc.t (list TestConfig);
  getContainerConfig : Exc.t ContainerConfig;
  getContainerAppsJobName : Exc.t string;
  getConcurrencyLimit : Exc.t JsNum;
}.

Module Response.
Record TestExecutionResponse : Type := {
  success : bool;
  message : string;
  totalExecutions : nat;
  successful : nat;
  failed : nat;
  executions : list (option JobExecutionResult);
  timestamp : string;
}.
End Response.

Abbreviation TestExecutionResponse := Response.TestExecutionResponse.

(** *** runWithConcurrencyLimit

    [worker(item)] is an asynchronous call: [begin_ item] is what runs
    until the call suspends, [resume p] what runs when it is resumed, up
    to the value the promise is fulfilled with (or the rejection).  A slot
    of [results] is [None] while it is a hole of [new Array(n)]. *)

Section Scheduler.

Context {TItem TResult Pend : Type}.
Variable begin_ : TItem -> M Pend.
Variable resume : Pend -> M TResult.

(** A lane is suspended in [await worker(items[current])], has
    returned, or has rejected. *)
Inductive Lane : Type :=
| Waiting (current : nat) (p : Pend)
| Finished
| Failed (e : Thrown).

Record Pool : Type := {
  index : nat;
  results : list (option TResult);
  lanes : list Lane;
}.

(** One lane from the top of its loop to where it suspends or ends:
    [const current = index++; if (current >= items.length) return;
    ... await worker(items[current])]. *)
Definition advance (items : list TItem) (index : nat) : M (nat * Lane) :=
  let current := index in
  match items !! current with
  | None => Eff.ret (S index, Finished)
  | Some item =>
      Eff.tryCatch
        (p <- begin_ item ;; Eff.ret (S index, Waiting current p))%eff
        (fun e => Eff.ret (S index, Failed e))
  end.

(** [new Array(n).fill(null).map(async () => ...)]: the lanes start one
    after the other. *)
Fixpoint spawn (items : list TItem) (n : nat) (index : nat) (started : list Lane)
  : M (nat * list Lane) :=
  match n with
  | O => Eff.ret (index, started)
  | S n' =>
      (st <- advance items index ;;
       spawn items n' (fst st) (started ++ [snd st])%list)%eff
  end.

(** The suspended lanes: position, claimed index, pending call. *)
Fixpoint waitingFrom (j : nat) (ls : list Lane) : list (nat * nat * Pend) :=
  match ls with
  | [] => []
  | Waiting current p :: rest => (j, current, p) :: waitingFrom (S j) rest
  | _ :: rest => waitingFrom (S j) rest
  end.

Fixpoint firstFailure (ls : list Lane) : option Thrown :=
  match ls with
  | [] => None
  | Failed e :: _ => Some e
  | _ :: rest => firstFailure rest
  end.

(** [await Promise.all(lanes); return results]: a rejected lane rejects
    the whole; otherwise one suspended lane, picked by the schedule,
    is resumed, stores its result and goes round its loop; with no
    lane suspended the results are returned.  [sched k] picks at the
    k-th resumption, among the lanes suspended then. *)
Fixpoint drive (fuel : nat) (sched : nat -> nat) (step : nat)
         (items : list TItem) (pool : Pool) : M (list (option TResult)) :=
  match firstFailure (lanes pool) with
  | Some e => Eff.throw e
  | None =>
      match waitingFrom 0 (lanes pool) with
      | [] => Eff.ret (results pool)
      | first :: others =>
          match fuel with
          | O => fun _ => OutOfFuel
          | S fuel' =>
              let '(j, current, p) :=
                List.nth (sched step mod S (List.length others))
                         (first :: others) first in
              Eff.bind
                (Eff.tryCatch
                   (r <- resume p ;;
                    st <- advance items (index pool) ;;
                    Eff.ret {| index := fst st;
                               results := <[current := Some r]> (results pool);
                               lanes := <[j := snd st]> (lanes pool) |})%eff
                   (fun e =>
                      Eff.ret {| index := index pool;
                                 results := results pool;
                                 lanes := <[j := Failed e]> (lanes pool) |}))
                (drive fuel' sched (S step) items)
          end
      end
  end.

Definition runWithConcurrencyLimit (sched : nat -> nat) (items : list TItem)
           (concurrencyLimit : JsNum) : M (list (option TResult)) :=
  let limit := JsNumber.max (JsNumber.ofZ 1) concurrencyLimit in
  let results : list (option TResult) := replicate (List.length items) None in
  match JsNumber.arrayLength
          (JsNumber.min limit (JsNumber.ofNat (List.length items))) with
  | None => Eff.throw (JsError "Invalid array length")
  | Some n =>
      (st <- spawn items n 0 [] ;;
       drive (List.length items) sched 0 items
             {| index := fst st; results := results; lanes := snd st |})%eff
  end.

End Scheduler.

Arguments Waiting {Pend} current p.
Arguments Finished {Pend}.
Arguments Failed {Pend} e.

(** *** executeTests *)

(** [arr.filter(p)]: the callback is not called on a hole, and the
    filtered array has none. *)
Fixpoint jsFilter {A} (p : A -> bool) (arr : list (option A)) : list A :=
  match arr with
  | [] => []
  | Some a :: rest => if p a then a :: jsFilter p rest else jsFilter p rest
  | None :: rest => jsFilter p rest
  end.

(** [arr.some(p)] *)
Fixpoint jsSome {A} (p : A -> bool) (arr : list (option A)) : bool :=
  match arr with
  | [] => false
  | Some a :: rest => p a || jsSome p rest
  | None :: rest => jsSome p rest
  end.

Fixpoint repeatString (s : string) (n : nat) : string :=
  match n with
  | O => EmptyString
  | S n' => s ++ repeatString s n'
  end.

Definition rule : string := repeatString "=" 60.

Fixpoint logAll (lines : list string) : M unit :=
  match lines with
  | [] => Eff.ret tt
  | l :: rest => (Eff.log l ;;; logAll rest)%eff
  end.

Definition cellText (c : TestConfig) : string := env c ++ "/" ++ platform c.

(** [e.includes("microsoft.app/jobs") && (e.includes("not found") ||
    e.includes("resourcenotfound"))] on the lower-cased error text. *)
Definition mentionsJobNotFound (e : string) : bool :=
  JsString.includes "microsoft.app/jobs" e
  && (JsString.includes "not found" e || JsString.includes "resourcenotfound" e).

Definition lowerError (r : JobExecutionResult) : string :=
  JsString.toLowerCase (orElse (error r) EmptyString).

(** Whether the operator hint is logged. *)
Definition hintDue (results : list (option JobExecutionResult)) (failed : nat) : bool :=
  let allFailed := (0 <? List.length results)%nat && (failed =? List.length results)%nat in
  if allFailed then
    let errors := List.map (option_map lowerError) results in
    jsSome mentionsJobNotFound errors
  else false.

Definition hintLines (jobName : string) : list string :=
  [ EmptyString;
    "⚠️  All executions failed because the Runner Job was not found.";
    "Create a Container Apps Job named " ++ ConfigService.dq ++ jobName
      ++ ConfigService.dq ++ " in resource group, then re-run.";
    "Also ensure the Job template container name matches the override name (default "
      ++ ConfigService.dq ++ "test-runner" ++ ConfigService.dq ++ ")." ].

Definition failureLine (r : JobExecutionResult) : string :=
  "  - " ++ cellText (config r) ++ ": " ++ showOpt (error r).

(** What is logged between the scheduler's return and the reading of the
    clock for the duration. *)
Definition summaryLines (jobName : string)
           (results : list (option JobExecutionResult)) : list string :=
  let successful := List.length (jsFilter (fun r => success r) results) in
  let failed := List.length (jsFilter (fun r => negb (success r)) results) in
  List.concat
    [ [ rule; "Job Execution Start Summary"; rule;
        "Total: " ++ showNat (List.length results);
        "✓ Successful: " ++ showNat successful;
        "✗ Failed: " ++ showNat failed ];
      (if (0 <? failed)%nat
       then "Failed Executions:"
            :: List.map failureLine (jsFilter (fun r => negb (success r)) results)
       else []);
      (if hintDue results failed then hintLines jobName else []) ].

Section WithHost.

Variable host : Host.

(** Step 6 of [executeTests], from the results to the response. *)
Definition summarize (startTime : Z) (jobName : string)
           (results : list (option JobExecutionResult)) : M TestExecutionResponse :=
  let successful := List.length (jsFilter (fun r => success r) results) in
  let failed := List.length (jsFilter (fun r => negb (success r)) results) in
  (logAll (summaryLines jobName results) ;;;
   now <- Eff.readClock host ;;
   let duration :=
     numberToFixed host 2 (Fin (Qred (Qmake (now - startTime) 1000))) in
   logAll [ "Execution Time: " ++ duration ++ "s"; rule;
            "✓ Orchestration completed. Executions running independently."; rule ] ;;;
   stamp <- Eff.isoNow host ;;
   Eff.ret {| Response.success := (failed =? 0)%nat;
              Response.message :=
                if (failed =? 0)%nat
                then "All executions started successfully"
                else showNat failed ++ " execution(s) failed to start";
              Response.totalExecutions := List.length results;
              Response.successful := successful;
              Response.failed := failed;
              Response.executions := results;
              Response.timestamp := stamp |})%eff.

Definition configLines (jobName : string) (containerConfig : ContainerConfig)
           (concurrencyLimit : JsNum) : list string :=
  let unspecified :=
    "Network intent: not specified (handled by Container Apps Environment)" in
  let shown (label : string) (o : option string) : list string :=
    match o with
    | Some n => if JsString.truthy n then [label ++ n] else []
    | None => []
    end in
  List.concat
    [ [ "Runner Job (Container Apps Job): " ++ jobName;
        "Image override: " ++ orElse (image containerConfig) "(use job default image)";
        "Resources: " ++ numberToString host (cpu containerConfig) ++ " CPU, "
          ++ numberToString host (memoryGB containerConfig) ++ "GB RAM";
        "Concurrency limit: " ++ numberToString host concurrencyLimit ];
      [ match runnerEnv containerConfig with
        | Some (e :: es) =>
            "Runner env passthrough: "
            ++ ConfigService.joinWith ", " (List.map fst (e :: es))
        | _ => "Runner env passthrough: (none)"
        end ];
      match network containerConfig with
      | Some net =>
          if enabled net then
            List.concat
              [ [ "Network intent: enabled (VNet=" ++ vnetName net ++ ")" ];
                shown "Subnet: " (subnetName net);
                shown "SubnetResourceId: " (subnetResourceId net) ]
          else [unspecified]
      | None => [unspecified]
      end ].

Definition executeTests (configService : ConfigServiceI) (sched : nat -> nat)
           (testConfigs : option (list TestConfig)) : M TestExecutionResponse :=
  (startTime <- Eff.readClock host ;;
   Eff.log rule ;;;
   Eff.log "Test Execution Started (Container Apps Jobs)" ;;;
   stamp <- Eff.isoNow host ;;
   Eff.log ("Timestamp: " ++ stamp) ;;;
   Eff.log rule ;;;
   Eff.tryCatch
     (let usingCustom :=
        match testConfigs with Some (_ :: _) => true | _ => false end in
      finalTestConfigs <-
        match testConfigs with
        | Some (c :: cs) => Eff.ret (c :: cs)
        | _ => Eff.lift (getTestMatrix configService)
        end ;;
      Eff.log (if usingCustom then "Using custom configuration:"
               else "Using default configuration from settings") ;;;
      Eff.log ("Test Matrix: " ++ showNat (List.length finalTestConfigs)
               ++ " configurations") ;;;
      logAll (List.map (fun c => "  - " ++ cellText c) finalTestConfigs) ;;;
      containerConfig <- Eff.lift (getContainerConfig configService) ;;
      jobName <- Eff.lift (getContainerAppsJobName configService) ;;
      concurrencyLimit <- Eff.lift (getConcurrencyLimit configService) ;;
      logAll (configLines jobName containerConfig concurrencyLimit) ;;;
      Eff.log "--- Job Execution Start Phase ---" ;;;
      results <-
        runWithConcurrencyLimit
          (ContainerService.dispatch host jobName containerConfig)
          (ContainerService.settle host)
          sched finalTestConfigs concurrencyLimit ;;
      summarize startTime jobName results)
     (fun err =>
        Eff.error "Fatal error in orchestration:" err ;;; Eff.throw err))%eff.

End WithHost.

End OrchestrationService.

(** ** The job entry point (src/job/main.ts) *)

(** The host of a run whose control-plane client and resource group are
    the ones the entry point sets up. *)
Definition hostWith (host : Host) (arm : nat -> StartCall -> Exc.t JobExecution)
           (group : string) : Host :=
  {| beginStartAndWait := arm;
     randomUUID := randomUUID host;
     dateNow := dateNow host;
     toISOString := toISOString host;
     numberToString := numberToString host;
     numberToFixed := numberToFixed host;
     processEnv := processEnv host;
     resourceGroup := group |}.

Module JobMain.

Record AzureConfig : Type := {
  subscriptionId : string;
  resourceGroup : string;
  location : string;
}.

(** What the entry point is linked against: [JSON.parse] and the
    constructors of the two SDK clients, for an endpoint and for a
    subscription. *)
Record Sdk : Type := {
  JSON_parse : string -> Exc.t ConfigService.Json;
  newAppConfigurationClient : string -> Exc.t ConfigService.AppConfigClient;
  newContainerAppsAPIClient : string -> Exc.t (nat -> StartCall -> Exc.t JobExecution);
}.

Section WithEnv.

Variable processEnv : ConfigService.ProcessEnv.

(** [name] is the name of an environment variable. *)
Definition requireEnv (name : string) : Exc.t string :=
  let value := JsString.trim (orElse (processEnv !! name) EmptyString) in
  if negb (JsString.truthy value)
  then Exc.throw (JsError ("Missing required environment variable: " ++ name))
  else Exc.ret value.

Definition getAzureConfig : Exc.t AzureConfig :=
  let location :=
    orElse (Some (JsString.trim (orElse (processEnv !! "AZURE_LOCATION") EmptyString)))
           "westeurope" in
  (subscriptionId <- requireEnv "AZURE_SUBSCRIPTION_ID" ;;
   resourceGroup <- requireEnv "RESOURCE_GROUP_NAME" ;;
   Exc.ret {| subscriptionId := subscriptionId;
              resourceGroup := resourceGroup;
              location := location |})%exc.

(** [(item as any)?.[k]] for [k] one of "env" and "platform", which no
    JSON value inherits: defined only as an own property of an object.
    The entries of an object have distinct keys. *)
Fixpoint own (fields : list (string * ConfigService.Json)) (k : string)
  : option ConfigService.Json :=
  match fields with
  | [] => None
  | (k', v) :: rest => if String.eqb k' k then Some v else own rest k
  end.

Definition member (item : ConfigService.Json) (k : string) : option ConfigService.Json :=
  match item with
  | ConfigService.JObj fields => own fields k
  | _ => None
  end.

(** [typeof v !== "string" || !v.trim()] *)
Definition invalidText (v : option ConfigService.Json) : bool :=
  match v with
  | Some (ConfigService.JStr s) => negb (JsString.truthy (JsString.trim s))
  | _ => true
  end.

Definition textOf (v : option ConfigService.Json) : string :=
  match v with
  | Some (ConfigService.JStr s) => s
  | _ => EmptyString
  end.

(** [parsed.map((item, i) => ...)] from index [i] on. *)
Fixpoint mapItems (items : list ConfigService.Json) (i : nat) : Exc.t (list TestConfig) :=
  match items with
  | [] => Exc.ret []
  | item :: rest =>
      let env := member item "env" in
      let platform := member item "platform" in
      if invalidText env then
        Exc.throw (JsError ("Invalid TEST_CONFIGS_JSON item #" ++ showNat i
                            ++ ": missing valid 'env'"))
      else if invalidText platform then
        Exc.throw (JsError ("Invalid TEST_CONFIGS_JSON item #" ++ showNat i
                            ++ ": missing valid 'platform'"))
      else
        (configs <- mapItems rest (S i) ;;
         Exc.ret (mkTestConfig (JsString.trim (textOf env))
                               (JsString.trim (textOf platform)) :: configs))%exc
  end.

Variable parse : string -> Exc.t ConfigService.Json.

Definition resolveCustomMatrixFromEnv : Exc.t (option (list TestConfig)) :=
  let raw := JsString.trim (orElse (processEnv !! "TEST_CONFIGS_JSON") EmptyString) in
  if negb (JsString.truthy raw) then Exc.ret None
  else
    (parsed <- Exc.tryCatch (parse raw)
                 (fun _ => Exc.throw (JsError
                    "Invalid TEST_CONFIGS_JSON: must be valid JSON")) ;;
     match parsed with
     | ConfigService.JArr items =>
         configs <- mapItems items 0 ;;
         Exc.ret (match configs with
                  | [] => None
                  | _ :: _ => Some configs
                  end)
     | _ => Exc.throw (JsError
              "Invalid TEST_CONFIGS_JSON: must be a JSON array of { env, platform } objects")
     end)%exc.

End WithEnv.

(** The ConfigService of a run as the orchestrator awaits it: the four
    methods over the client and the process environment.  What the
    ConfigService writes to the console itself is not part of the log of
    the world. *)
Definition configServiceOf (sdk : Sdk) (client : ConfigService.AppConfigClient)
           (processEnv : ConfigService.ProcessEnv)
  : OrchestrationService.ConfigServiceI :=
  {| OrchestrationService.getTestMatrix :=
       ConfigService.getTestMatrix client processEnv;
     OrchestrationService.getContainerConfig :=
       (r <- ConfigService.getContainerConfig client (JSON_parse sdk) processEnv ;;
        Exc.ret (fst r))%exc;
     OrchestrationService.getContainerAppsJobName :=
       ConfigService.getContainerAppsJobName client processEnv;
     OrchestrationService.getConcurrencyLimit :=
       Exc.ret (ConfigService.getConcurrencyLimitDefault client processEnv) |}.

(** [main()]: the value is the code [process.exit] is called with. *)
Definition main (sdk : Sdk) (host : Host) (sched : nat -> nat) : M Z :=
  (Eff.log OrchestrationService.rule ;;;
   Eff.log "TestOrchestrator Job Started (Container Apps Jobs)" ;;;
   stamp <- Eff.isoNow host ;;
   Eff.log ("Timestamp: " ++ stamp) ;;;
   Eff.log OrchestrationService.rule ;;;
   Eff.tryCatch
     (azureConfig <- Eff.lift (getAzureConfig (processEnv host)) ;;
      client <- Eff.lift (ConfigService.constructor (newAppConfigurationClient sdk)
                                                    (processEnv host)) ;;
      arm <- Eff.lift (newContainerAppsAPIClient sdk (subscriptionId azureConfig)) ;;
      customMatrix <- Eff.lift (resolveCustomMatrixFromEnv (processEnv host)
                                                           (JSON_parse sdk)) ;;
      match customMatrix with
      | Some configs =>
          Eff.log ("Custom matrix provided: " ++ showNat (List.length configs)
                   ++ " configurations") ;;;
          OrchestrationService.logAll
            (List.map (fun c => "  - " ++ OrchestrationService.cellText c) configs)
      | None =>
          Eff.log "No custom matrix provided -> using defaults from ConfigService"
      end ;;;
      result <- OrchestrationService.executeTests
                  (hostWith host arm (resourceGroup azureConfig))
                  (configServiceOf sdk client (processEnv host))
                  sched customMatrix ;;
      Eff.ret (if OrchestrationService.Response.success result then 0 else 1))
     (fun err =>
        Eff.error "Fatal error in job entrypoint:" err ;;; Eff.ret 1))%eff.

End JobMain.

(** ** Vocabulary of the properties *)

(** A primary source that holds both lists. *)
Definition clientOf (environments platforms : string) : ConfigService.AppConfigClient :=
  fun k =>
    inr {| ConfigService.key := k;
           ConfigService.value :=
             if String.eqb k "TestMatrix:Environments" then Some environments
             else if String.eqb k "TestMatrix:Platforms" then Some platforms
             else Some EmptyString |}.



(** The values the entries named [n] carry, in order. *)
Definition valuesOf (n : string) (l : list EnvVar) : list string :=
  List.map value (List.filter (fun e => String.eqb (name e) n) l).

(** The passthrough entries that are forwarded, and the warnings for the
    ones that are not. *)
Definition forwarded (entries : list (string * string)) : list EnvVar :=
  List.map (fun e => mkEnvVar (fst e) (snd e))
           (List.filter (fun e => negb (ContainerService.isReservedKey (fst e))) entries).

Definition droppedWarnings (entries : list (string * string)) : list LogEntry :=
  List.map (fun e => WarnLine ("runnerEnv ignored reserved key '" ++ fst e ++ "'"))
           (List.filter (fun e => ContainerService.isReservedKey (fst e)) entries).

(** The world after more logger output. *)
Definition logged (w : World) (entries : list LogEntry) : World :=
  {| logs := (logs w ++ entries)%list; calls := calls w;
     draws := draws w; reads := reads w |}.

(** The reserved names of an environment list carry what the orchestrator
    assigns for the cell, the [k]-th random identifier and the image. *)
Definition reservedAssigned (host : Host) (cell : TestConfig) (image : string)
           (k : nat) (l : list EnvVar) : Prop :=
  valuesOf "ENV" l = [env cell]
  /\ valuesOf "ENV_LABEL" l = [env cell]
  /\ valuesOf "PLATFORM" l = [platform cell]
  /\ valuesOf "RUN_ID" l = [List.hd EmptyString (JsString.split "-" (randomUUID host k))]
  /\ valuesOf "BUILD_NUMBER" l
     = match ContainerService.tryExtractImageTag image with
       | Some tag => [tag]
       | None => []
       end.

(** The warning for an image without a tag. *)
Definition buildNumberWarning : LogEntry :=
  WarnLine "BUILD_NUMBER not injected: could not derive tag from CONTAINER_IMAGE (missing tag or digest image).".

(** The first line a start logs. *)
Definition startingLine (jobName : string) (cell : TestConfig) : LogEntry :=
  LogLine ("Starting Job execution: " ++ jobName ++ " for "
           ++ env cell ++ "/" ++ platform cell).

(** The result of a start that failed with [e]. *)
Definition failureResult (jobName : string) (cell : TestConfig) (e : Thrown)
  : JobExecutionResult :=
  {| jobName := jobName; executionName := "unknown"; executionId := None;
     config := cell; success := false; error := Some (errorText e);
     startedAt := None |}.

(** The result of a start that the remote side accepted at time [stamp]. *)
Definition successResult (jobName : string) (cell : TestConfig)
           (execution : JobExecution) (stamp : string) : JobExecutionResult :=
  {| jobName := jobName;
     executionName := orElse (executionBaseName execution) "unknown";
     executionId := executionBaseId execution;
     config := cell; success := true; error := None;
     startedAt := Some stamp |}.

(** The cell a suspended start belongs to. *)
Definition pendingCell (p : ContainerService.Pending) : TestConfig :=
  match p with
  | ContainerService.Settled r => config r
  | ContainerService.InFlight _ cell _ => cell
  end.

(** A host for examples: the second start call is refused, the others are
    accepted; identifiers and times are numbered. *)
Definition sampleHost : Host :=
  {| beginStartAndWait := fun n _ =>
       if Nat.eqb n 1 then inl (JsError "Start failed")
       else inr {| executionBaseName := Some ("exec-" ++ showNat n);
                   executionBaseId := Some ("id-" ++ showNat n) |};
     randomUUID := fun n => "0a1b2c3" ++ showNat n ++ "-0000-4000-8000-000000000000";
     dateNow := fun n => 1000 * Z.of_nat n;
     toISOString := fun z => "T" ++ showNat (Z.to_nat z);
     numberToString := fun _ => "n";
     numberToFixed := fun _ _ => "n";
     processEnv := ∅;
     resourceGroup := "test-rg" |}.

Definition sampleConfig (img : option string) : ContainerConfig :=
  {| image := img; cpu := Fin 1; memoryGB := Fin 2; network := None;
     runnerEnv := Some [("ENV", "hijack-env"); ("SUITE", "smoke")] |}.

(** What the scheduler maintains between two resumptions.  [origin p item]
    says that the suspended call [p] was made for [item], and [post item r]
    is what is known of a result of the worker for [item]. *)
Record PoolInv {TItem TResult Pend : Type} (origin : Pend -> TItem -> Prop)
       (post : TItem -> TResult -> Prop) (items : list TItem)
       (pool : @OrchestrationService.Pool TResult Pend) : Prop := {
  inv_length :
    List.length (OrchestrationService.results pool) = List.length items;
  inv_claimed :
    forall i item,
      items !! i = Some item -> (i < OrchestrationService.index pool)%nat ->
      (exists r, OrchestrationService.results pool !! i = Some (Some r) /\ post item r)
      \/ (exists j p,
             OrchestrationService.lanes pool !! j
             = Some (OrchestrationService.Waiting i p));
  inv_waiting :
    forall j c p,
      OrchestrationService.lanes pool !! j = Some (OrchestrationService.Waiting c p) ->
      exists item, items !! c = Some item /\ origin p item;
  inv_no_failure :
    forall j e,
      OrchestrationService.lanes pool !! j <> Some (OrchestrationService.Failed e);
}.

(** The work left: items not yet claimed, and suspended lanes. *)
Definition workLeft {TItem TResult Pend : Type} (items : list TItem)
           (pool : @OrchestrationService.Pool TResult Pend) : nat :=
  (List.length items - OrchestrationService.index pool)
  + List.length (OrchestrationService.waitingFrom 0 (OrchestrationService.lanes pool)).

(** Every slot of the returned array holds a result of the worker for the
    item at the same position. *)
Definition slotsFilled {TItem TResult : Type} (post : TItem -> TResult -> Prop)
           (items : list TItem) (rs : list (option TResult)) : Prop :=
  List.length rs = List.length items
  /\ forall i item, items !! i = Some item ->
                    exists r, rs !! i = Some (Some r) /\ post item r.

(** What a lane that went round its loop at [index] is. *)
Definition laneAt {TItem Pend : Type} (origin : Pend -> TItem -> Prop)
           (items : list TItem) (index : nat)
           (lane : @OrchestrationService.Lane Pend) : Prop :=
  (items !! index = None /\ lane = OrchestrationService.Finished)
  \/ (exists p item, lane = OrchestrationService.Waiting index p
                     /\ items !! index = Some item /\ origin p item).

(** Some lane is suspended, or every index has been claimed. *)
Definition notStalled {TItem TResult Pend : Type} (items : list TItem)
           (pool : @OrchestrationService.Pool TResult Pend) : Prop :=
  OrchestrationService.waitingFrom 0 (OrchestrationService.lanes pool) <> []
  \/ (List.length items <= OrchestrationService.index pool)%nat.

(** The suspended call [p] was made for [item] by a start for [jobName]. *)
Definition startedFor (jobName : string) (p : ContainerService.Pending)
           (item : TestConfig) : Prop :=
  match p with
  | ContainerService.Settled r => exists e, r = failureResult jobName item e
  | ContainerService.InFlight jn cell _ => jn = jobName /\ cell = item
  end.

(** [r] is a result of a start of [jobName] for [item]: a failure with the
    message of what was thrown, or a success with what the remote side
    answered. *)
Definition resultFor (jobName : string) (item : TestConfig) (r : JobExecutionResult)
  : Prop :=
  (exists e, r = failureResult jobName item e)
  \/ (exists execution stamp, r = successResult jobName item execution stamp).

(** The world after one more reading of the clock. *)
Definition ticked (w : World) : World :=
  {| logs := logs w; calls := calls w; draws := draws w; reads := S (reads w) |}.

(** What the matrix of a run is resolved to: the custom one when it is
    given and not empty, else the one of the ConfigService. *)
Definition resolvedMatrix (cs : OrchestrationService.ConfigServiceI)
           (testConfigs : option (list TestConfig)) : Exc.t (list TestConfig) :=
  match testConfigs with
  | Some (c :: rest) => inr (c :: rest)
  | _ => OrchestrationService.getTestMatrix cs
  end.

(** A ConfigService for examples: an image with a tag, the job "job", the
    limit 2. *)
Definition sampleService : OrchestrationService.ConfigServiceI :=
  {| OrchestrationService.getTestMatrix := inr [];
     OrchestrationService.getContainerConfig := inr (sampleConfig (Some "repo:v1"));
     OrchestrationService.getContainerAppsJobName := inr "job";
     OrchestrationService.getConcurrencyLimit := inr (JsNumber.ofZ 2) |}.

Definition sampleMatrix : list TestConfig :=
  [ mkTestConfig "qa" "web"; mkTestConfig "qa" "mobile"; mkTestConfig "prod" "web" ].

(** The line that opens the operator hint. *)
Definition hintHeadline : LogEntry :=
  LogLine "⚠️  All executions failed because the Runner Job was not found.".

(** Every slot holds a failed result. *)
Definition allFailed (rs : list (option JobExecutionResult)) : Prop :=
  forall o, In o rs -> exists r, o = Some r /\ success r = false.

(** The error text of [r], lower-cased, names a job that was not found. *)
Definition jobNotFound (r : JobExecutionResult) : bool :=
  OrchestrationService.mentionsJobNotFound (OrchestrationService.lowerError r).

Definition someJobNotFound (rs : list (option JobExecutionResult)) : Prop :=
  exists r, In (Some r) rs /\ jobNotFound r = true.

Definition everyJobNotFound (rs : list (option JobExecutionResult)) : Prop :=
  forall r, In (Some r) rs -> jobNotFound r = true.

(** The success flags of the slots. *)
Definition flags (rs : list (option JobExecutionResult)) : list (option bool) :=
  List.map (option_map success) rs.

(** Two failed results: the job is missing for the first, the second timed
    out. *)
Definition mixedFailures : list (option JobExecutionResult) :=
  [ Some (failureResult "job" (mkTestConfig "qa" "web")
            (JsError "Microsoft.App/jobs/job was not found"));
    Some (failureResult "job" (mkTestConfig "qa" "mobile")
            (JsError "request timed out")) ].

(** A line that does not open with the warning sign. *)
Definition plainLine (t : string) : Prop := JsString.startsWith "⚠" t = false.

(** The configuration of a run, resolved in the order the run awaits it:
    matrix, container configuration, job name, limit. *)
Definition resolveAll (cs : OrchestrationService.ConfigServiceI)
           (testConfigs : option (list TestConfig))
  : Exc.t (list TestConfig * ContainerConfig * string * JsNum) :=
  (matrix <- resolvedMatrix cs testConfigs ;;
   cc <- OrchestrationService.getContainerConfig cs ;;
   jobName <- OrchestrationService.getContainerAppsJobName cs ;;
   limit <- OrchestrationService.getConcurrencyLimit cs ;;
   Exc.ret (matrix, cc, jobName, limit))%exc.

(** Index correspondence: the array is as long as the matrix, and its
    i-th slot holds a result of a start for the i-th cell, with that cell
    as its [config]. *)
Definition indexCorresponding (jobName : string) (matrix : list TestConfig)
           (rs : list (option JobExecutionResult)) : Prop :=
  List.length rs = List.length matrix
  /\ forall i cell,
      matrix !! i = Some cell ->
      exists r, rs !! i = Some (Some r)
                /\ config r = cell
                /\ resultFor jobName cell r.

(* ================================================================== *)
(** * Properties *)
(* ================================================================== *)

Local Open Scope list_scope.

(** ** Strings *)

Section StringFacts.

Import JsString.





Lemma contains_app c s t :
  contains c (s ++ t)%string = contains c s || contains c t.
Proof.
  induction s as [|a s IH]; simpl; [reflexivity|].
  now rewrite IH, orb_assoc.
Qed.

Lemma includes_char c s :
  includes (String c EmptyString) s = contains c s.
Proof.
  induction s as [|a s IH]; simpl; [reflexivity|].
  rewrite IH. rewrite (Ascii.eqb_sym c a).
  destruct (Ascii.eqb a c); simpl; [reflexivity|].
  now destruct s.
Qed.





Lemma truthy_false s : truthy s = false <-> s = EmptyString.
Proof. destruct s; simpl; split; congruence. Qed.

Lemma truthy_true s : truthy s = true <-> s <> EmptyString.
Proof. destruct s; simpl; split; congruence. Qed.

End StringFacts.

(** ** Tag extraction *)

Section TagExtraction.

Import JsString ContainerService.

Lemma drop_app_exact pre t : drop (String.length pre) (pre ++ t)%string = t.
Proof. induction pre as [|a pre IH]; simpl; [now destruct t | exact IH]. Qed.


(** The shape of every successful extraction. *)
Lemma tryExtractImageTag_some image tag :
  tryExtractImageTag image = Some tag ->
  contains "@" (trim image) = false
  /\ lastIndexOf "/" (trim image) < lastIndexOf ":" (trim image)
  /\ tag = trim (slice (trim image) (lastIndexOf ":" (trim image) + 1))
  /\ tag <> EmptyString.
Proof.
  unfold tryExtractImageTag. set (v := trim image). intros H.
  destruct (truthy v); simpl in H; [|discriminate].
  rewrite includes_char in H.
  destruct (contains "@" v); [discriminate|].
  destruct (Z.gtb_spec (lastIndexOf ":" v) (lastIndexOf "/" v)) as [Hlt|]; [|discriminate].
  destruct (truthy (trim (slice v (lastIndexOf ":" v + 1)))) eqn:Ht; [|discriminate].
  injection H as <-. repeat split; auto. now apply truthy_true.
Qed.

End TagExtraction.



(** ** The test matrix *)

Section Matrix.

Import ConfigService.




End Matrix.





(** A primary value that is not empty but names nothing, such as ",", is
    used as it is: the fallbacks are not consulted and the matrix is empty. *)
Lemma getTestMatrix_blank_primary :
  ConfigService.getTestMatrix (clientOf "," "web") ∅ = inr [].
Proof. reflexivity. Qed.

(** ** The concurrency limit *)

Section ConcurrencyLimit.

Import ConfigService.

Lemma clamp_range n :
  n <> NaN -> exists q, clamp n = Fin q /\ (1 <= q)%Q /\ (q <= 25)%Q.
Proof.
  intros Hn. unfold clamp, JsNumber.ofZ.
  destruct n as [| | |q]; [congruence| | |]; simpl.
  - exists 25%Q. split; [reflexivity|]. split; [discriminate | apply Qle_refl].
  - exists 1%Q. split; [reflexivity|]. split; [apply Qle_refl | discriminate].
  - destruct (Qle_bool (inject_Z 25) q) eqn:H25; simpl.
    + exists 25%Q. split; [reflexivity|]. split; [discriminate | apply Qle_refl].
    + assert (Hq : (q <= 25)%Q).
      { apply Qlt_le_weak, Qnot_le_lt. intros H.
        apply Qle_bool_iff in H. unfold inject_Z in H25. congruence. }
      destruct (Qle_bool (inject_Z 1) q) eqn:H1.
      * exists q. split; [reflexivity|]. split; [now apply Qle_bool_iff | exact Hq].
      * exists 1%Q. split; [reflexivity|]. split; [apply Qle_refl | discriminate].
Qed.

(** With a default that is a number, the limit is a number between 1
    and 25, whatever the sources hold. *)
Lemma getConcurrencyLimit_range client penv defaultValue :
  defaultValue <> NaN ->
  exists q, getConcurrencyLimit client penv defaultValue = Fin q
            /\ (1 <= q)%Q /\ (q <= 25)%Q.
Proof.
  intros Hd. unfold getConcurrencyLimit.
  assert (Hp : forall s k,
             (exists q, k = Fin q /\ (1 <= q)%Q /\ (q <= 25)%Q) ->
             exists q,
               (if negb (JsNumber.isNaN (JsNumber.Number s))
                   && JsNumber.isFinite (JsNumber.Number s)
                then clamp (JsNumber.Number s) else k) = Fin q
               /\ (1 <= q)%Q /\ (q <= 25)%Q).
  { intros s k Hk. destruct (JsNumber.Number s); simpl; auto.
    apply clamp_range. discriminate. }
  repeat match goal with
         | |- context [if JsString.truthy ?s then _ else _] =>
             destruct (JsString.truthy s)
         end;
    repeat apply Hp; now apply clamp_range.
Qed.

(** A primary value that is not a finite number counts as absent. *)
Lemma getConcurrencyLimit_invalid_primary client penv defaultValue raw :
  settingValue (safeGet client "Orchestration:ConcurrencyLimit") = Some raw ->
  JsNumber.isFinite (JsNumber.Number (JsString.trim raw)) = false ->
  getConcurrencyLimit client penv defaultValue
  = getConcurrencyLimit (fun _ => inl (JsError "unavailable")) penv defaultValue.
Proof.
  intros Hv Hf. unfold getConcurrencyLimit. rewrite Hv. simpl orElse.
  destruct (JsString.truthy raw); simpl;
    destruct (JsString.truthy (JsString.trim _)); try reflexivity;
    rewrite Hf, andb_false_r; reflexivity.
Qed.

End ConcurrencyLimit.

(** The raw inputs of the specification: "0", "100" and "12" in the
    fallback variable give 1, 25 and 12; so does the primary source. *)
Lemma getConcurrencyLimit_examples :
  ConfigService.getConcurrencyLimit (clientOf "" "")
    {[ "ORCH_CONCURRENCY_LIMIT" := "0" ]} (JsNumber.ofZ 10) = Fin 1
  /\ ConfigService.getConcurrencyLimit (clientOf "" "")
       {[ "ORCH_CONCURRENCY_LIMIT" := "100" ]} (JsNumber.ofZ 10) = Fin 25
  /\ ConfigService.getConcurrencyLimit (clientOf "" "")
       {[ "ORCH_CONCURRENCY_LIMIT" := "12" ]} (JsNumber.ofZ 10) = Fin 12
  /\ ConfigService.getConcurrencyLimit (clientOf "" "") ∅ (JsNumber.ofZ 10) = Fin 10
  /\ ConfigService.getConcurrencyLimit (clientOf "" "")
       {[ "ORCH_CONCURRENCY_LIMIT" := "twelve" ]} (JsNumber.ofZ 10) = Fin 10.
Proof. repeat split; vm_compute; reflexivity. Qed.

(** ** The environment of an execution *)

Section ExecutionEnv.

Import ContainerService.

Lemma logged_nil w : logged w [] = w.
Proof. destruct w; unfold logged; simpl. now rewrite List.app_nil_r. Qed.

Lemma logged_logged w a b : logged (logged w a) b = logged w (a ++ b).
Proof. unfold logged; simpl. now rewrite <- List.app_assoc. Qed.

Lemma pushRunnerEnv_run entries : forall envList w,
  pushRunnerEnv entries envList w
  = Returned (envList ++ forwarded entries) (logged w (droppedWarnings entries)).
Proof.
  induction entries as [|[n v] entries IH]; intros envList w.
  - simpl. unfold Eff.ret, forwarded, droppedWarnings; simpl.
    now rewrite List.app_nil_r, logged_nil.
  - simpl. unfold forwarded, droppedWarnings in *; simpl.
    destruct (isReservedKey n) eqn:Hr; simpl.
    + unfold Eff.bind, Eff.warn, Eff.emit. rewrite IH.
      f_equal. unfold logged; simpl. now rewrite <- List.app_assoc.
    + rewrite IH. now rewrite <- List.app_assoc.
Qed.

Lemma valuesOf_app n a b : valuesOf n (a ++ b) = (valuesOf n a ++ valuesOf n b).
Proof. unfold valuesOf. now rewrite List.filter_app, List.map_app. Qed.

Lemma valuesOf_forwarded n entries :
  isReservedKey n = true -> valuesOf n (forwarded entries) = [].
Proof.
  intros Hn. unfold valuesOf, forwarded.
  induction entries as [|[k v] entries IH]; simpl; [reflexivity|].
  destruct (isReservedKey k) eqn:Hk; simpl; [exact IH|].
  destruct (String.eqb_spec k n) as [->|]; [congruence | exact IH].
Qed.

Lemma tryExtractImageTag_truthy image tag :
  tryExtractImageTag image = Some tag -> JsString.truthy tag = true.
Proof.
  intros H. apply tryExtractImageTag_some in H as (_ & _ & _ & H).
  now apply truthy_true.
Qed.

(** What [buildExecutionEnv] returns and does. *)
Lemma buildExecutionEnv_run host cell runnerEnv image w :
  exists envList,
    buildExecutionEnv host cell runnerEnv image w
    = Returned envList
        {| logs := logs w
                   ++ match tryExtractImageTag image with
                      | Some _ => []
                      | None => [buildNumberWarning]
                      end
                   ++ match runnerEnv with
                      | Some entries => droppedWarnings entries
                      | None => []
                      end;
           calls := calls w; draws := S (draws w); reads := reads w |}
    /\ envList
       = ([ mkEnvVar "ENV" (env cell); mkEnvVar "ENV_LABEL" (env cell);
            mkEnvVar "PLATFORM" (platform cell);
            mkEnvVar "RUN_ID"
              (List.hd EmptyString (JsString.split "-" (randomUUID host (draws w)))) ]
          ++ match tryExtractImageTag image with
             | Some tag => [mkEnvVar "BUILD_NUMBER" tag]
             | None => []
             end
          ++ match runnerEnv with
             | Some entries => forwarded entries
             | None => []
             end).
Proof.
  unfold buildExecutionEnv, Eff.bind, Eff.drawUUID.
  destruct (tryExtractImageTag image) as [tag|] eqn:Htag.
  - rewrite (tryExtractImageTag_truthy _ _ Htag). unfold Eff.ret.
    destruct runnerEnv as [entries|].
    + rewrite pushRunnerEnv_run. eexists; split; reflexivity.
    + eexists; split; [|reflexivity]. simpl. now rewrite ?List.app_nil_r.
  - unfold Eff.warn, Eff.emit, Eff.ret.
    destruct runnerEnv as [entries|].
    + rewrite pushRunnerEnv_run. eexists; split; [|reflexivity].
      unfold logged; simpl. now rewrite <- List.app_assoc.
    + eexists; split; [|reflexivity]. simpl. now rewrite ?List.app_nil_r.
Qed.

Lemma reservedAssigned_intro host cell image k passthrough :
  reservedAssigned host cell image k
    ([ mkEnvVar "ENV" (env cell); mkEnvVar "ENV_LABEL" (env cell);
       mkEnvVar "PLATFORM" (platform cell);
       mkEnvVar "RUN_ID"
         (List.hd EmptyString (JsString.split "-" (randomUUID host k))) ]
     ++ match tryExtractImageTag image with
        | Some tag => [mkEnvVar "BUILD_NUMBER" tag]
        | None => []
        end
     ++ match passthrough with
        | Some entries => forwarded entries
        | None => []
        end).
Proof.
  assert (Hf : forall n, isReservedKey n = true ->
               valuesOf n (match passthrough with
                           | Some entries => forwarded entries
                           | None => []
                           end) = []).
  { intros n Hn. destruct passthrough; [now apply valuesOf_forwarded | reflexivity]. }
  unfold reservedAssigned.
  repeat split; rewrite !valuesOf_app, Hf by reflexivity;
    destruct (tryExtractImageTag image); reflexivity.
Qed.

End ExecutionEnv.

Section Prepare.

Import ContainerService.

Lemma In_droppedWarnings entries n v :
  In (n, v) entries -> isReservedKey n = true ->
  In (WarnLine ("runnerEnv ignored reserved key '" ++ n ++ "'")) (droppedWarnings entries).
Proof.
  intros Hin Hr. unfold droppedWarnings.
  apply (List.in_map (fun e => WarnLine ("runnerEnv ignored reserved key '" ++ fst e ++ "'"))
           _ (n, v)).
  apply List.filter_In. now split.
Qed.

Lemma In_forwarded entries n v :
  In (n, v) entries -> isReservedKey n = false -> In (mkEnvVar n v) (forwarded entries).
Proof.
  intros Hin Hr. unfold forwarded.
  apply (List.in_map (fun e => mkEnvVar (fst e) (snd e)) _ (n, v)).
  apply List.filter_In. split; [exact Hin | simpl; now rewrite Hr].
Qed.

(** What the body of the [try] does up to the start call: without an
    image it throws after its first log line and issues no call; with
    one it issues exactly one call, for the job, carrying the image and
    the environment list. *)
Lemma prepare_run host jobName cell cc w :
  match requireTestAutomationRunnerImage (image cc) with
  | inl e =>
      prepare host jobName cell cc w
      = Raised e (logged w [startingLine jobName cell])
  | inr img =>
      exists call w',
        prepare host jobName cell cc w = Returned (List.length (calls w), call) w'
        /\ calls w' = calls w ++ [call]
        /\ draws w' = S (draws w)
        /\ reads w' = reads w
        /\ callJobName call = jobName
        /\ containerImage (callContainer call) = img
        /\ reservedAssigned host cell img (draws w) (containerEnv (callContainer call))
  end.
Proof.
  unfold prepare.
  destruct (requireTestAutomationRunnerImage (image cc)) as [e|img] eqn:Himg.
  - unfold Eff.bind at 1. unfold Eff.log, Eff.emit. unfold Eff.bind. simpl. reflexivity.
  - unfold Eff.bind at 1. unfold Eff.log, Eff.emit.
    unfold Eff.bind at 1. simpl Eff.lift. unfold Eff.ret at 1.
    unfold Eff.bind.
    match goal with
    | |- context [buildExecutionEnv ?h ?c ?r ?i ?w0] =>
        destruct (buildExecutionEnv_run h c r i w0) as (envList & Hrun & Hlist);
        rewrite Hrun
    end.
    unfold Eff.issueCall. simpl.
    eexists _, _. split; [reflexivity|]. simpl.
    do 5 (split; [reflexivity|]).
    subst envList. apply reservedAssigned_intro.
Qed.

End Prepare.

(** ** The passthrough map *)

Section Passthrough.

Import ConfigService.

Lemma objGet_objPut out k v k' :
  objGet (objPut out k v) k' = if String.eqb k k' then Some v else objGet out k'.
Proof.
  induction out as [|[k0 v0] out IH]; simpl.
  - now destruct (String.eqb k k').
  - destruct (String.eqb_spec k0 k) as [->|Hne]; simpl.
    + now destruct (String.eqb k k').
    + rewrite IH. destruct (String.eqb_spec k0 k') as [->|]; [|reflexivity].
      destruct (String.eqb_spec k k'); [congruence | reflexivity].
Qed.

Lemma objGet_objSet_other out k v k' :
  k <> k' -> objGet (objSet out k v) k' = objGet out k'.
Proof.
  intros Hne. unfold objSet. destruct (String.eqb k "__proto__"); [reflexivity|].
  rewrite objGet_objPut. now destruct (String.eqb_spec k k').
Qed.

(** The loop never stores a reserved name. *)
Lemma collectPassthrough_reserved entries : forall out warns k,
  isReserved k = true ->
  objGet out k = None ->
  objGet (fst (collectPassthrough entries out warns)) k = None.
Proof.
  induction entries as [|[k0 val] entries IH]; intros out warns k Hk Hout; simpl.
  - exact Hout.
  - destruct (isValidEnvVarName k0); simpl; [|now apply IH].
    destruct (isReserved k0) eqn:Hk0; [now apply IH|].
    apply IH; [exact Hk|]. rewrite objGet_objSet_other; [exact Hout|].
    intros ->. congruence.
Qed.

(** A reserved name with a valid spelling is answered by a warning. *)
Lemma collectPassthrough_warns entries : forall out warns k val,
  In (k, val) entries ->
  isValidEnvVarName k = true -> isReserved k = true ->
  In ("RUNNER_ENV_PASSTHROUGH: '" ++ k ++ "' is reserved and will be ignored")%string
     (snd (collectPassthrough entries out warns)).
Proof.
  assert (Hkeep : forall entries out warns x,
             In x warns -> In x (snd (collectPassthrough entries out warns))).
  { induction entries0 as [|[k0 v0] entries0 IH]; intros out warns x Hx; simpl; [exact Hx|].
    destruct (isValidEnvVarName k0); simpl.
    - destruct (isReserved k0); apply IH; [|exact Hx].
      unfold snoc. apply List.in_or_app. now left.
    - apply IH. unfold snoc. apply List.in_or_app. now left. }
  induction entries as [|[k0 v0] entries IH]; intros out warns k val Hin Hv Hr; [destruct Hin|].
  destruct Hin as [Heq|Hin].
  - injection Heq as -> ->. simpl. rewrite Hv, Hr. simpl.
    apply Hkeep. unfold snoc. apply List.in_or_app. right. now left.
  - simpl. destruct (isValidEnvVarName k0); simpl;
      [destruct (isReserved k0)|]; now apply IH with val.
Qed.

(** The map handed to the container configuration holds none of ENV,
    ENV_LABEL, PLATFORM and RUN_ID. *)
Lemma getRunnerEnvPassthroughMap_reserved JSON_parse penv out warns k :
  getRunnerEnvPassthroughMap JSON_parse penv = inr (out, warns) ->
  isReserved k = true ->
  objGet out k = None.
Proof.
  unfold getRunnerEnvPassthroughMap. intros H Hk.
  destruct (negb (JsString.truthy _)); [discriminate|].
  unfold Exc.bind in H.
  match type of H with
  | match ?c with _ => _ end = _ => destruct c as [e|parsedObj]; [discriminate|]
  end.
  pose proof (collectPassthrough_reserved parsedObj [] [] k Hk eq_refl) as Hc.
  destruct (collectPassthrough parsedObj [] []) as [out0 warns0]. simpl in Hc.
  assert (Hset : forall v, objGet (objSet out0 "APP_CONFIG_ENDPOINT" v) k = None).
  { intros v. rewrite objGet_objSet_other; [exact Hc|]. intros <-. discriminate Hk. }
  destruct (objGet out0 "APP_CONFIG_ENDPOINT") as [e|].
  - destruct (negb (JsString.truthy e)); [injection H as <- _; apply Hset|].
    destruct (negb (String.eqb e _)); injection H as <- _; [apply Hset | exact Hc].
  - injection H as <- _. apply Hset.
Qed.

End Passthrough.

(** C3.  Whatever the passthrough map holds, building the environment of
    an execution succeeds, and in the list it returns each of ENV,
    ENV_LABEL, PLATFORM and RUN_ID occurs once, with the value the
    orchestrator assigns, and BUILD_NUMBER occurs with the tag of the image
    or, when there is none, not at all.  A passthrough entry with one of
    these names is answered by a warning; every other entry is forwarded;
    no start call is made by the builder.  The request of a start carries
    such a list.  The passthrough map the ConfigService resolves holds none
    of ENV, ENV_LABEL, PLATFORM and RUN_ID in the first place. *)
Theorem buildExecutionEnv_reserved host cell runnerEnv imageRef w :
  exists envList w',
    ContainerService.buildExecutionEnv host cell runnerEnv imageRef w = Returned envList w'
    /\ reservedAssigned host cell imageRef (draws w) envList
    /\ (forall entries n v,
           runnerEnv = Some entries -> In (n, v) entries ->
           ContainerService.isReservedKey n = true ->
           In (WarnLine ("runnerEnv ignored reserved key '" ++ n ++ "'")) (logs w'))
    /\ (forall entries n v,
           runnerEnv = Some entries -> In (n, v) entries ->
           ContainerService.isReservedKey n = false ->
           In (mkEnvVar n v) envList)
    /\ calls w' = calls w
    /\ (forall jobName cc k call w2,
           ContainerService.prepare host jobName cell cc w = Returned (k, call) w2 ->
           exists img,
             ContainerService.requireTestAutomationRunnerImage (image cc) = inr img
             /\ reservedAssigned host cell img (draws w) (containerEnv (callContainer call)))
    /\ (forall JSON_parse penv out warns k,
           ConfigService.getRunnerEnvPassthroughMap JSON_parse penv = inr (out, warns) ->
           ConfigService.isReserved k = true ->
           ConfigService.objGet out k = None).
Proof.
  destruct (buildExecutionEnv_run host cell runnerEnv imageRef w) as (envList & Hrun & Hlist).
  eexists _, _. split; [exact Hrun|]. simpl.
  split; [subst envList; apply reservedAssigned_intro|].
  split; [|split; [|split; [reflexivity|split]]].
  4: { intros JSON_parse penv out warns k.
       apply getRunnerEnvPassthroughMap_reserved. }
  - intros entries n v -> Hin Hr.
    apply List.in_or_app. right. apply List.in_or_app. right.
    now apply In_droppedWarnings with v.
  - intros entries n v -> Hin Hr. subst envList.
    apply List.in_or_app. right. apply List.in_or_app. right.
    now apply In_forwarded.
  - intros jobName cc k call w2 Hp.
    pose proof (prepare_run host jobName cell cc w) as H.
    destruct (ContainerService.requireTestAutomationRunnerImage (image cc))
      as [e|img].
    + rewrite H in Hp. discriminate.
    + destruct H as (call' & w' & Hrun' & _ & _ & _ & _ & _ & Hres).
      rewrite Hrun' in Hp. injection Hp as _ <- _.
      now exists img.
Qed.

(** The passthrough map holds a reserved name and another one. *)
Lemma buildExecutionEnv_reserved_witness :
  exists envList w',
    ContainerService.buildExecutionEnv sampleHost (mkTestConfig "prod" "web")
      (Some [("ENV", "hijack-env"); ("SUITE", "smoke")]) "repo:v1" emptyWorld
    = Returned envList w'
    /\ valuesOf "ENV" envList = ["prod"]
    /\ In (WarnLine "runnerEnv ignored reserved key 'ENV'") (logs w')
    /\ In (mkEnvVar "SUITE" "smoke") envList.
Proof.
  destruct (buildExecutionEnv_reserved sampleHost (mkTestConfig "prod" "web")
              (Some [("ENV", "hijack-env"); ("SUITE", "smoke")]) "repo:v1" emptyWorld)
    as (envList & w' & Hrun & Hres & Hwarn & Hfwd & _).
  exists envList, w'. split; [exact Hrun|].
  split; [exact (proj1 Hres)|]. split.
  - apply (Hwarn _ "ENV" "hijack-env" eq_refl); [left; reflexivity | reflexivity].
  - apply (Hfwd _ "SUITE" "smoke" eq_refl); [right; left; reflexivity | reflexivity].
Defined.

(** ** One start *)

Section OneStart.

Import ContainerService.

Lemma requireImage_missing img e :
  requireTestAutomationRunnerImage img = inl e ->
  e = JsError
        ("Missing runner image. Set CONTAINER_IMAGE (or AppConfig key Container:Image). "
         ++ "Azure Job execution template override requires 'image' when specifying template.containers.").
Proof.
  unfold requireTestAutomationRunnerImage.
  destruct (negb (JsString.truthy _)); unfold Exc.throw, Exc.ret; congruence.
Qed.

(** The [catch] block returns the failure result and logs one error. *)
Lemma recover_run jobName cell e w :
  recover jobName cell e w
  = Returned (failureResult jobName cell e)
      (logged w [ErrorLine ("✗ Failed to start execution for " ++ env cell ++ "/"
                            ++ platform cell ++ " (job=" ++ jobName ++ "):") e]).
Proof. reflexivity. Qed.

(** After the await: success when the call resolved, else the [catch]. *)
Lemma complete_run host jobName cell settled w :
  Eff.tryCatch (complete host jobName cell settled) (recover jobName cell) w
  = match settled with
    | inr execution =>
        Returned
          (successResult jobName cell execution
             (toISOString host (dateNow host (reads w))))
          {| logs := logs w
                     ++ [LogLine ("✓ Execution started: "
                                  ++ showOpt (executionBaseName execution))];
             calls := calls w; draws := draws w; reads := S (reads w) |}
    | inl e => recover jobName cell e w
    end.
Proof. destruct settled as [e|execution]; reflexivity. Qed.

(** The function is its two halves run one after the other. *)
Lemma startTestExecution_two_phase host jobName cell cc w :
  startTestExecution host jobName cell cc w
  = Eff.bind (dispatch host jobName cc cell) (settle host) w.
Proof.
  unfold startTestExecution, dispatch, Eff.tryCatch, Eff.bind.
  destruct (prepare host jobName cell cc w) as [pending w1|e w1|]; reflexivity.
Qed.

Lemma dispatch_run host jobName cc cell w :
  match requireTestAutomationRunnerImage (image cc) with
  | inl e =>
      dispatch host jobName cc cell w
      = Returned (Settled (failureResult jobName cell e))
          (logged (logged w [startingLine jobName cell])
             [ErrorLine ("✗ Failed to start execution for " ++ env cell ++ "/"
                         ++ platform cell ++ " (job=" ++ jobName ++ "):") e])
  | inr img =>
      exists call w',
        dispatch host jobName cc cell w
        = Returned (InFlight jobName cell (List.length (calls w), call)) w'
        /\ calls w' = calls w ++ [call]
  end.
Proof.
  pose proof (prepare_run host jobName cell cc w) as H.
  unfold dispatch, Eff.tryCatch, Eff.bind.
  destruct (requireTestAutomationRunnerImage (image cc)) as [e|img].
  - rewrite H. reflexivity.
  - destruct H as (call & w' & Hrun & Hcalls & _). rewrite Hrun.
    exists call, w'. split; [reflexivity | exact Hcalls].
Qed.

(** Neither half throws, and the result is for the cell of the call. *)
Lemma dispatch_total host jobName cc cell w :
  exists p w', dispatch host jobName cc cell w = Returned p w' /\ pendingCell p = cell.
Proof.
  pose proof (dispatch_run host jobName cc cell w) as H.
  destruct (requireTestAutomationRunnerImage (image cc)) as [e|img].
  - rewrite H. eexists _, _. split; reflexivity.
  - destruct H as (call & w' & -> & _). eexists _, _. split; reflexivity.
Qed.

Lemma settle_total host p w :
  exists r w', settle host p w = Returned r w'
               /\ config r = pendingCell p /\ calls w' = calls w.
Proof.
  destruct p as [r|jobName cell call]; simpl.
  - exists r, w. repeat split.
  - rewrite complete_run. destruct (Eff.awaitCall host call) as [e|execution].
    + rewrite recover_run. eexists _, _. repeat split.
    + eexists _, _. repeat split.
Qed.

End OneStart.

(** C2.  A start returns exactly one result for its cell and never throws.
    Without an image the result is a failure carrying the "Missing runner
    image" message, and no start call is made.  With an image one start
    call is made; when it resolves the result is a success with the name
    and identifier of the execution and the time of the start; when it
    throws, the result is a failure carrying the message of what was
    thrown. *)
Theorem startTestExecution_never_throws host jobName cell cc w :
  exists r w',
    ContainerService.startTestExecution host jobName cell cc w = Returned r w'
    /\ config r = cell
    /\ ((exists e,
            ContainerService.requireTestAutomationRunnerImage (image cc) = inl e
            /\ r = failureResult jobName cell e
            /\ calls w' = calls w)
        \/ (exists img call execution,
               ContainerService.requireTestAutomationRunnerImage (image cc) = inr img
               /\ calls w' = calls w ++ [call]
               /\ beginStartAndWait host (List.length (calls w)) call = inr execution
               /\ r = successResult jobName cell execution
                        (toISOString host (dateNow host (reads w))))
        \/ (exists img call e,
               ContainerService.requireTestAutomationRunnerImage (image cc) = inr img
               /\ calls w' = calls w ++ [call]
               /\ beginStartAndWait host (List.length (calls w)) call = inl e
               /\ r = failureResult jobName cell e))
    /\ (image cc = None ->
        success r = false
        /\ error r = Some
             ("Missing runner image. Set CONTAINER_IMAGE (or AppConfig key Container:Image). "
              ++ "Azure Job execution template override requires 'image' when specifying template.containers.")%string
        /\ calls w' = calls w).
Proof.
  rewrite startTestExecution_two_phase. unfold Eff.bind.
  pose proof (dispatch_run host jobName cc cell w) as H.
  pose proof (prepare_run host jobName cell cc w) as Hp.
  destruct (ContainerService.requireTestAutomationRunnerImage (image cc))
    as [e|img] eqn:Himg.
  - rewrite H. simpl. eexists _, _. split; [reflexivity|].
    split; [reflexivity|]. split.
    + left. exists e. repeat split.
    + intros _. rewrite (requireImage_missing _ _ Himg). repeat split.
  - destruct H as (call & w1 & Hrun & Hcalls). rewrite Hrun.
    destruct Hp as (call' & w1' & Hprep & _ & _ & Hreads & _).
    assert (Hr : reads w1 = reads w).
    { unfold ContainerService.dispatch, Eff.tryCatch, Eff.bind in Hrun.
      rewrite Hprep in Hrun. unfold Eff.ret in Hrun.
      injection Hrun as _ <-. exact Hreads. }
    simpl ContainerService.settle. rewrite complete_run.
    unfold Eff.awaitCall; simpl fst; simpl snd.
    destruct (beginStartAndWait host (List.length (calls w)) call)
      as [e|execution] eqn:Hremote.
    + rewrite recover_run. eexists _, _. split; [reflexivity|].
      split; [reflexivity|]. split.
      * right. right. exists img, call, e. repeat split; auto.
      * intros Hnone. exfalso. rewrite Hnone in Himg. discriminate.
    + eexists _, _. split; [reflexivity|].
      split; [reflexivity|]. split.
      * right. left. exists img, call, execution. rewrite Hr. repeat split; auto.
      * intros Hnone. exfalso. rewrite Hnone in Himg. discriminate.
Qed.

(** A start without an image. *)
Lemma startTestExecution_never_throws_witness :
  exists r w',
    ContainerService.startTestExecution sampleHost "job"
      (mkTestConfig "prod" "web") (sampleConfig None) emptyWorld = Returned r w'
    /\ success r = false
    /\ calls w' = [].
Proof.
  destruct (startTestExecution_never_throws sampleHost "job"
              (mkTestConfig "prod" "web") (sampleConfig None) emptyWorld)
    as (r & w' & Hrun & _ & _ & Hmissing).
  exists r, w'. split; [exact Hrun|].
  destruct (Hmissing eq_refl) as (Hs & _ & Hc). split; [exact Hs | exact Hc].
Defined.

(** ** The scheduler *)

Section NumberFacts.

Lemma Qred_inject_Z k : Qred (inject_Z k) = inject_Z k.
Proof.
  unfold Qred, inject_Z.
  pose proof (Z.ggcd_gcd k 1) as Hg.
  pose proof (Z.ggcd_correct_divisors k 1) as Hd.
  destruct (Z.ggcd k 1) as (g & aa & bb). simpl in *.
  rewrite Z.gcd_1_r in Hg. subst g. destruct Hd as [Ha Hb].
  rewrite Z.mul_1_l in Ha, Hb. subst aa bb. reflexivity.
Qed.

Lemma Qle_bool_inject_Z a b : Qle_bool (inject_Z a) (inject_Z b) = (a <=? b)%Z.
Proof. unfold Qle_bool, inject_Z; simpl. now rewrite !Z.mul_1_r. Qed.

(** The number of lanes for an integer limit. *)
Lemma laneCount z len :
  JsNumber.arrayLength
    (JsNumber.min (JsNumber.max (JsNumber.ofZ 1) (JsNumber.ofZ z)) (JsNumber.ofNat len))
  = Some (Z.to_nat (Z.min (Z.max 1 z) (Z.of_nat len))).
Proof.
  unfold JsNumber.ofNat, JsNumber.ofZ, JsNumber.max, JsNumber.min.
  rewrite Qle_bool_inject_Z.
  assert (H : forall k, (0 <= k)%Z ->
              JsNumber.arrayLength (Fin (inject_Z k)) = Some (Z.to_nat k)).
  { intros k Hk. unfold JsNumber.arrayLength, JsNumber.isInteger.
    rewrite Qred_inject_Z. simpl.
    destruct (Z.leb_spec 0 k); [reflexivity | lia]. }
  destruct (Z.leb_spec 1 z);
    rewrite Qle_bool_inject_Z;
    match goal with |- context [(?a <=? ?b)%Z] => destruct (Z.leb_spec a b) end;
    rewrite H by lia; f_equal; lia.
Qed.

Lemma arrayLength_at_least_one x n :
  (1 <= x)%Q -> JsNumber.arrayLength (Fin x) = Some n -> (1 <= n)%nat.
Proof.
  intros Hx. unfold JsNumber.arrayLength, JsNumber.isInteger.
  destruct (Pos.eqb_spec (Qden (Qred x)) 1) as [Hden|]; [|discriminate].
  destruct (0 <=? Qnum x)%Z; [|discriminate].
  simpl. intros [= <-].
  assert (H : (1 <= Qred x)%Q) by now rewrite Qred_correct.
  unfold Qle in H. rewrite Hden in H. simpl in H. lia.
Qed.

(** A lane count that [new Array] accepts is positive, unless there is
    no item. *)
Lemma laneCount_positive limit len n :
  JsNumber.arrayLength
    (JsNumber.min (JsNumber.max (JsNumber.ofZ 1) limit) (JsNumber.ofNat len))
  = Some n ->
  (1 <= n)%nat \/ len = 0%nat.
Proof.
  destruct len as [|len]; [now right|]. intros H. left. revert H.
  assert (Hlen : (1 <= inject_Z (Z.of_nat (S len)))%Q).
  { unfold Qle, inject_Z; simpl. lia. }
  unfold JsNumber.ofNat, JsNumber.ofZ.
  destruct limit as [| | |q]; simpl JsNumber.max.
  - discriminate.
  - simpl JsNumber.min. now apply arrayLength_at_least_one.
  - unfold JsNumber.min.
    destruct (Qle_bool (inject_Z 1) (inject_Z (Z.of_nat (S len))));
      apply arrayLength_at_least_one; [apply Qle_refl | exact Hlen].
  - unfold JsNumber.min.
    assert (Hm : (1 <= (if Qle_bool (inject_Z 1) q then q else inject_Z 1))%Q).
    { destruct (Qle_bool (inject_Z 1) q) eqn:H1;
        [now apply Qle_bool_iff in H1 | apply Qle_refl]. }
    destruct (Qle_bool _ (inject_Z (Z.of_nat (S len))));
      apply arrayLength_at_least_one; [exact Hm | exact Hlen].
Qed.

End NumberFacts.

Section SchedulerFacts.

Import OrchestrationService.

Context {TItem TResult Pend : Type}.
Variable begin_ : TItem -> M Pend.
Variable resume : Pend -> M TResult.
Variable origin : Pend -> TItem -> Prop.
Variable post : TItem -> TResult -> Prop.

Hypothesis begin_total :
  forall item w, exists p w', begin_ item w = Returned p w' /\ origin p item.
Hypothesis resume_total :
  forall p w, exists r w',
    resume p w = Returned r w' /\ forall item, origin p item -> post item r.

Variable items : list TItem.

Implicit Types (ls started : list (@Lane Pend)) (pool : @Pool TResult Pend).
Implicit Types (results : list (option TResult)).

Lemma waitingFrom_length k ls :
  List.length (waitingFrom k ls) = List.length (waitingFrom 0 ls).
Proof.
  revert k. induction ls as [|l ls IH]; intros k; [reflexivity|].
  destruct l; simpl; rewrite ?(IH (S k)), ?(IH 1%nat); reflexivity.
Qed.

Lemma waitingFrom_In k ls j c p :
  In (j, c, p) (waitingFrom k ls) ->
  (k <= j)%nat /\ ls !! (j - k)%nat = Some (Waiting c p).
Proof.
  revert k. induction ls as [|l ls IH]; intros k; simpl; [tauto|].
  assert (Hrest : In (j, c, p) (waitingFrom (S k) ls) ->
                  (k <= j)%nat /\ (l :: ls) !! (j - k)%nat = Some (Waiting c p)).
  { intros H. apply IH in H as [Hle Hl]. split; [lia|].
    replace (j - k)%nat with (S (j - S k)) by lia. exact Hl. }
  destruct l; simpl; auto.
  intros [Heq|H]; auto.
  injection Heq as <- <- <-. split; [lia|]. now rewrite Nat.sub_diag.
Qed.

Lemma waitingFrom_nil k ls j c p :
  waitingFrom k ls = [] -> ls !! j <> Some (Waiting c p).
Proof.
  revert k j. induction ls as [|l ls IH]; intros k j H; [now destruct j|].
  destruct l; simpl in H; try discriminate;
    destruct j; simpl; try discriminate; eauto.
Qed.

Lemma waitingFrom_snoc k ls l :
  List.length (waitingFrom k (ls ++ [l]))
  = (List.length (waitingFrom k ls)
     + match l with Waiting _ _ => 1 | _ => 0 end)%nat.
Proof.
  revert k. induction ls as [|l0 ls IH]; intros k; simpl.
  - destruct l; reflexivity.
  - destruct l0; simpl; rewrite IH; reflexivity.
Qed.

Lemma waitingFrom_insert k ls j c p l :
  ls !! j = Some (Waiting c p) ->
  (List.length (waitingFrom k (<[j := l]> ls))
   + match l with Waiting _ _ => 0 | _ => 1 end)%nat
  = List.length (waitingFrom k ls).
Proof.
  revert j k.
  induction ls as [|l0 ls IH]; intros j k H; [now destruct j|].
  destruct j as [|j]; simpl in *.
  - injection H as ->. simpl. destruct l; simpl; lia.
  - specialize (IH _ (S k) H). destruct l0; simpl; lia.
Qed.

Lemma firstFailure_none ls :
  firstFailure ls = None <-> forall j e, ls !! j <> Some (Failed e).
Proof.
  induction ls as [|l ls IH]; simpl.
  - split; [intros _ j e; now destruct j | reflexivity].
  - destruct l.
    + rewrite IH. split.
      * intros H [|j] e; simpl; [discriminate | apply H].
      * intros H j e. apply (H (S j) e).
    + rewrite IH. split.
      * intros H [|j] e; simpl; [discriminate | apply H].
      * intros H j e. apply (H (S j) e).
    + split; [discriminate|]. intros H. now specialize (H 0%nat e).
Qed.

(** One turn of a lane's loop: it claims the next index, and either
    suspends in the call for the item there or, past the end, returns. *)
Lemma advance_run index w :
  exists lane w',
    advance begin_ items index w = Returned (S index, lane) w'
    /\ laneAt origin items index lane.
Proof.
  unfold advance, laneAt. destruct (items !! index) as [item|] eqn:Hi.
  - destruct (begin_total item w) as (p & w' & Hb & Ho).
    unfold Eff.tryCatch, Eff.bind. rewrite Hb. unfold Eff.ret.
    exists (Waiting index p), w'. split; [reflexivity|].
    right. now exists p, item.
  - exists Finished, w. split; [reflexivity|]. now left.
Qed.

Lemma inv_spawn index results ls lane :
  PoolInv origin post items {| index := index; results := results; lanes := ls |} ->
  laneAt origin items index lane ->
  PoolInv origin post items
    {| index := S index; results := results; lanes := ls ++ [lane] |}.
Proof.
  intros [Hlen Hcl Hw Hnf] Hlane; simpl in *.
  constructor; simpl.
  - exact Hlen.
  - intros i item Hi Hlt.
    destruct (Nat.eq_dec i index) as [->|Hne].
    + right. destruct Hlane as [[Hnone _]|(p & it & -> & _)]; [congruence|].
      exists (List.length ls), p. apply lookup_snoc_Some. now right.
    + destruct (Hcl i item Hi) as [Hdone|(j & p & Hj)]; [lia | now left |].
      right. exists j, p. apply lookup_snoc_Some. left.
      split; [now apply lookup_lt_Some in Hj | exact Hj].
  - intros j c p Hj. apply lookup_snoc_Some in Hj as [[_ Hj]|[_ Hj]].
    + now apply Hw with j.
    + destruct Hlane as [[_ ->]|(p' & it & -> & Hi & Ho)]; [discriminate|].
      injection Hj as <- <-. now exists it.
  - intros j e Hj. apply lookup_snoc_Some in Hj as [[_ Hj]|[_ Hj]].
    + now apply (Hnf j e).
    + destruct Hlane as [[_ ->]|(p' & it & -> & _)]; discriminate.
Qed.

Lemma inv_step pool j c p r lane :
  PoolInv origin post items pool ->
  lanes pool !! j = Some (Waiting c p) ->
  (forall item, origin p item -> post item r) ->
  laneAt origin items (index pool) lane ->
  PoolInv origin post items
    {| index := S (index pool);
       results := <[c := Some r]> (results pool);
       lanes := <[j := lane]> (lanes pool) |}.
Proof.
  intros [Hlen Hcl Hw Hnf] Hj Hr Hlane.
  destruct (Hw _ _ _ Hj) as (it & Hc & Ho).
  assert (Hjlt : (j < List.length (lanes pool))%nat) by now apply lookup_lt_Some in Hj.
  constructor; simpl.
  - now rewrite length_insert.
  - intros i item Hi Hlt.
    destruct (Nat.eq_dec i c) as [->|Hne].
    + left. exists r. split.
      * apply list_lookup_insert_eq. rewrite Hlen. now apply lookup_lt_Some in Hc.
      * rewrite Hc in Hi. injection Hi as <-. now apply Hr.
    + destruct (Nat.eq_dec i (index pool)) as [->|Hni].
      * right. destruct Hlane as [[Hnone _]|(p' & it' & -> & _)]; [congruence|].
        exists j, p'. now apply list_lookup_insert_eq.
      * destruct (Hcl i item Hi) as [(r' & Hdone & Hp)|(j' & p' & Hj')]; [lia| |].
        -- left. exists r'. split; [|exact Hp].
           rewrite list_lookup_insert_ne by congruence. exact Hdone.
        -- right. exists j', p'.
           rewrite list_lookup_insert_ne; [exact Hj'|].
           intros ->. rewrite Hj in Hj'. congruence.
  - intros j' c' p' Hj'.
    apply list_lookup_insert_Some in Hj' as [(_ & Heq & _)|(_ & Hold)].
    + destruct Hlane as [[_ ->]|(q & it' & -> & Hi & Ho')]; [discriminate|].
      injection Heq as <- <-. now exists it'.
    + now apply Hw with j'.
  - intros j' e Hj'.
    apply list_lookup_insert_Some in Hj' as [(_ & Heq & _)|(_ & Hold)].
    + destruct Hlane as [[_ ->]|(q & it' & -> & _)]; discriminate.
    + now apply (Hnf j' e).
Qed.

Lemma workLeft_spawn index results ls lane :
  laneAt origin items index lane ->
  workLeft items {| index := S index; results := results; lanes := ls ++ [lane] |}
  = workLeft items {| index := index; results := results; lanes := ls |}.
Proof.
  unfold workLeft; simpl. rewrite waitingFrom_snoc.
  intros [[Hnone ->]|(p & it & -> & Hi & _)].
  - apply lookup_ge_None in Hnone. lia.
  - apply lookup_lt_Some in Hi. lia.
Qed.

Lemma workLeft_step pool j c p r lane :
  lanes pool !! j = Some (Waiting c p) ->
  laneAt origin items (index pool) lane ->
  S (workLeft items {| index := S (index pool);
                       results := <[c := Some r]> (results pool);
                       lanes := <[j := lane]> (lanes pool) |})
  = workLeft items pool.
Proof.
  unfold workLeft; simpl. intros Hj Hlane.
  pose proof (waitingFrom_insert 0 _ _ _ _ lane Hj) as Hw.
  destruct Hlane as [[Hnone ->]|(q & it & -> & Hi & _)].
  - apply lookup_ge_None in Hnone. lia.
  - apply lookup_lt_Some in Hi. lia.
Qed.

Lemma spawn_run n : forall index results started w,
  PoolInv origin post items {| index := index; results := results; lanes := started |} ->
  exists index' ls w',
    spawn begin_ items n index started w = Returned (index', ls) w'
    /\ PoolInv origin post items {| index := index'; results := results; lanes := ls |}
    /\ workLeft items {| index := index'; results := results; lanes := ls |}
       = workLeft items {| index := index; results := results; lanes := started |}
    /\ ((1 <= n)%nat
          \/ notStalled items {| index := index; results := results; lanes := started |} ->
        notStalled items {| index := index'; results := results; lanes := ls |}).
Proof.
  induction n as [|n IH]; intros index results started w Hinv.
  - exists index, started, w. simpl.
    split; [reflexivity|]. split; [exact Hinv|]. split; [reflexivity|].
    intros [H|H]; [lia | exact H].
  - simpl. unfold Eff.bind.
    destruct (advance_run index w) as (lane & w1 & Hadv & Hlane).
    rewrite Hadv. simpl fst; simpl snd.
    destruct (IH (S index) results (started ++ [lane]) w1
                (inv_spawn _ _ _ _ Hinv Hlane))
      as (index' & ls & w' & Hrun & Hinv' & Hwork & Hstall).
    exists index', ls, w'. split; [exact Hrun|]. split; [exact Hinv'|].
    split; [rewrite Hwork; now apply workLeft_spawn|].
    intros _. apply Hstall. right.
    unfold notStalled; simpl.
    destruct Hlane as [[Hnone ->]|(p & it & -> & Hi & _)].
    + right. apply lookup_ge_None in Hnone. lia.
    + left. intros Hnil.
      pose proof (waitingFrom_snoc 0 started (Waiting index p)) as Hs.
      rewrite Hnil in Hs. simpl in Hs. lia.
Qed.

Variable sched : nat -> nat.

Lemma drive_S fuel step pool :
  drive begin_ resume (S fuel) sched step items pool
  = match firstFailure (lanes pool) with
    | Some e => Eff.throw e
    | None =>
        match waitingFrom 0 (lanes pool) with
        | [] => Eff.ret (results pool)
        | first :: others =>
            let '(j, current, p) :=
              List.nth (sched step mod S (List.length others)) (first :: others) first in
            Eff.bind
              (Eff.tryCatch
                 (Eff.bind (resume p) (fun r =>
                  Eff.bind (advance begin_ items (index pool)) (fun st =>
                  Eff.ret {| index := fst st;
                             results := <[current := Some r]> (results pool);
                             lanes := <[j := snd st]> (lanes pool) |})))
                 (fun e =>
                    Eff.ret {| index := index pool;
                               results := results pool;
                               lanes := <[j := Failed e]> (lanes pool) |}))
              (drive begin_ resume fuel sched (S step) items)
        end
    end.
Proof. reflexivity. Qed.

Lemma drive_run fuel : forall step pool w,
  PoolInv origin post items pool ->
  (workLeft items pool <= fuel)%nat ->
  notStalled items pool ->
  exists rs w',
    drive begin_ resume fuel sched step items pool w = Returned rs w'
    /\ slotsFilled post items rs.
Proof.
  induction fuel as [|fuel IH]; intros step pool w Hinv Hwork Hstall.
  all: pose proof (proj2 (firstFailure_none (lanes pool)) (inv_no_failure _ _ _ _ Hinv))
    as Hff.
  all: destruct (waitingFrom 0 (lanes pool)) as [|first others] eqn:Hwait.
  1, 3: exists (results pool), w; split;
    [simpl; now rewrite Hff, Hwait|];
    split; [apply (inv_length _ _ _ _ Hinv)|];
    intros i item Hi;
    destruct Hstall as [Hs|Hs]; [congruence|];
    destruct (inv_claimed _ _ _ _ Hinv i item Hi) as [Hdone|(j & p & Hj)];
    [apply lookup_lt_Some in Hi; lia | exact Hdone |];
    now apply (waitingFrom_nil 0 _ j i p) in Hwait.
  - unfold workLeft in Hwork. rewrite Hwait in Hwork. simpl in Hwork. lia.
  - rewrite drive_S, Hff, Hwait.
    destruct (List.nth (sched step mod S (List.length others)) (first :: others) first)
      as [[j c] p] eqn:Hpick.
    assert (Hin : In (j, c, p) (waitingFrom 0 (lanes pool))).
    { rewrite Hwait, <- Hpick. apply List.nth_In.
      change (List.length (first :: others)) with (S (List.length others)).
      apply Nat.mod_upper_bound. lia. }
    apply waitingFrom_In in Hin as [_ Hj]. rewrite Nat.sub_0_r in Hj.
    destruct (resume_total p w) as (r & w1 & Hres & Hpost).
    destruct (advance_run (index pool) w1) as (lane & w2 & Hadv & Hlane).
    unfold Eff.bind at 1. unfold Eff.tryCatch. unfold Eff.bind at 1.
    rewrite Hres. unfold Eff.bind at 1. rewrite Hadv. unfold Eff.ret.
    simpl fst; simpl snd.
    apply IH.
    + now apply inv_step with p.
    + pose proof (workLeft_step pool j c p r lane Hj Hlane). lia.
    + unfold notStalled; simpl.
      pose proof (waitingFrom_insert 0 _ _ _ _ lane Hj) as Hw.
      rewrite Hwait in Hw. simpl in Hw.
      destruct Hlane as [[Hnone ->]|(q & it & -> & Hi & _)].
      * right. apply lookup_ge_None in Hnone. lia.
      * left. intros Hnil. rewrite Hnil in Hw. simpl in Hw. lia.
Qed.

(** For every limit: either the number of lanes is refused by
    [new Array] and nothing has been started, or the scheduler returns and
    every slot holds a result of the worker for the item at its position,
    whichever lane is resumed when. *)
Lemma runWithConcurrencyLimit_any limit w :
  match JsNumber.arrayLength
          (JsNumber.min (JsNumber.max (JsNumber.ofZ 1) limit)
                        (JsNumber.ofNat (List.length items))) with
  | None =>
      runWithConcurrencyLimit begin_ resume sched items limit w
      = Raised (JsError "Invalid array length") w
  | Some n =>
      exists rs w',
        runWithConcurrencyLimit begin_ resume sched items limit w = Returned rs w'
        /\ slotsFilled post items rs
  end.
Proof.
  pose proof (laneCount_positive limit (List.length items)) as Hpos.
  unfold runWithConcurrencyLimit.
  destruct (JsNumber.arrayLength _) as [n|]; [|reflexivity].
  specialize (Hpos n eq_refl).
  set (results0 := replicate (List.length items) (@None TResult)).
  assert (Hinv0 : PoolInv origin post items
                    {| index := 0; results := results0; lanes := [] |}).
  { constructor; simpl.
    - apply length_replicate.
    - intros i item _ Hlt. lia.
    - intros j c p Hj. now destruct j.
    - intros j e Hj. now destruct j. }
  unfold Eff.bind.
  destruct (spawn_run n 0%nat results0 [] w Hinv0)
    as (index' & ls & w1 & Hrun & Hinv & Hwork & Hstall).
  rewrite Hrun. simpl fst; simpl snd.
  apply drive_run.
  - exact Hinv.
  - rewrite Hwork. unfold workLeft; simpl. lia.
  - apply Hstall. destruct Hpos as [Hn|Hlen]; [now left|].
    right. unfold notStalled; simpl. right. lia.
Qed.

(** For an integer limit the scheduler returns. *)
Lemma runWithConcurrencyLimit_run z w :
  exists rs w',
    runWithConcurrencyLimit begin_ resume sched items (JsNumber.ofZ z) w
    = Returned rs w'
    /\ slotsFilled post items rs.
Proof.
  pose proof (runWithConcurrencyLimit_any (JsNumber.ofZ z) w) as H.
  now rewrite laneCount in H.
Qed.

End SchedulerFacts.

Section StartsUnderTheScheduler.

Import ContainerService OrchestrationService.

Variable host : Host.
Variable jobName : string.
Variable cc : ContainerConfig.

Lemma dispatch_origin item w :
  exists p w',
    dispatch host jobName cc item w = Returned p w' /\ startedFor jobName p item.
Proof.
  pose proof (dispatch_run host jobName cc item w) as H.
  destruct (requireTestAutomationRunnerImage (image cc)) as [e|img].
  - rewrite H. eexists _, _. split; [reflexivity|]. now exists e.
  - destruct H as (call & w' & -> & _). eexists _, _. split; [reflexivity|].
    now split.
Qed.

Lemma settle_result p w :
  exists r w',
    settle host p w = Returned r w'
    /\ forall item, startedFor jobName p item -> resultFor jobName item r.
Proof.
  destruct p as [r|jn cell call]; simpl.
  - exists r, w. split; [reflexivity|]. intros item He. now left.
  - rewrite complete_run. destruct (Eff.awaitCall host call) as [e|execution].
    + rewrite recover_run. eexists _, _. split; [reflexivity|].
      intros item [-> ->]. left. now exists e.
    + eexists _, _. split; [reflexivity|].
      intros item [-> ->]. right. now eexists _, _.
Qed.

Lemma resultFor_config item r : resultFor jobName item r -> config r = item.
Proof. intros [(e & ->)|(x & stamp & ->)]; reflexivity. Qed.

Lemma slotsFilled_indexCorresponding matrix rs :
  slotsFilled (resultFor jobName) matrix rs -> indexCorresponding jobName matrix rs.
Proof.
  intros [Hlen Hslots]. split; [exact Hlen|].
  intros i cell Hi. destruct (Hslots i cell Hi) as (r & Hr & Hpost).
  exists r. split; [exact Hr|]. split; [|exact Hpost].
  now apply resultFor_config.
Qed.

(** The scheduler over the starts of a matrix, for any limit. *)
Lemma startAll_any sched (matrix : list TestConfig) limit w :
  match JsNumber.arrayLength
          (JsNumber.min (JsNumber.max (JsNumber.ofZ 1) limit)
                        (JsNumber.ofNat (List.length matrix))) with
  | None =>
      runWithConcurrencyLimit (dispatch host jobName cc) (settle host)
        sched matrix limit w = Raised (JsError "Invalid array length") w
  | Some n =>
      exists rs w',
        runWithConcurrencyLimit (dispatch host jobName cc) (settle host)
          sched matrix limit w = Returned rs w'
        /\ slotsFilled (resultFor jobName) matrix rs
  end.
Proof.
  apply (runWithConcurrencyLimit_any
           (dispatch host jobName cc) (settle host)
           (startedFor jobName) (resultFor jobName)
           dispatch_origin settle_result).
Qed.

(** The scheduler over the starts of a matrix, for an integer limit. *)
Lemma startAll_run sched (matrix : list TestConfig) z w :
  exists rs w',
    runWithConcurrencyLimit (dispatch host jobName cc) (settle host)
      sched matrix (JsNumber.ofZ z) w = Returned rs w'
    /\ slotsFilled (resultFor jobName) matrix rs.
Proof.
  apply (runWithConcurrencyLimit_run
           (dispatch host jobName cc) (settle host)
           (startedFor jobName) (resultFor jobName)
           dispatch_origin settle_result).
Qed.

Lemma runWithConcurrencyLimit_below_one
      {TItem TResult Pend : Type} (begin_ : TItem -> M Pend) (resume : Pend -> M TResult)
      sched items z w :
  (z <= 1)%Z ->
  runWithConcurrencyLimit begin_ resume sched items (JsNumber.ofZ z) w
  = runWithConcurrencyLimit begin_ resume sched items (JsNumber.ofZ 1) w.
Proof.
  intros Hz. unfold runWithConcurrencyLimit.
  replace (JsNumber.max (JsNumber.ofZ 1) (JsNumber.ofZ z))
    with (JsNumber.max (JsNumber.ofZ 1) (JsNumber.ofZ 1)); [reflexivity|].
  unfold JsNumber.max, JsNumber.ofZ. rewrite !Qle_bool_inject_Z.
  destruct (Z.leb_spec 1 z); [|reflexivity].
  now replace z with 1%Z by lia.
Qed.

End StartsUnderTheScheduler.

(** C1.  For every matrix and every integer limit, whichever suspended
    lane the schedule resumes at each step and whether starts succeed or
    fail, the scheduler returns an array as long as the matrix whose i-th
    slot holds a result of the start for the i-th cell (the failure or the
    success of that start, with that cell as its [config]).  A limit below
    1 runs as the limit 1.  For a limit that is any number, either the
    lane count is refused when the lanes are created, before any start, or
    the same holds. *)
Theorem runWithConcurrencyLimit_index_correspondence
        host jobName cc sched (matrix : list TestConfig) w :
  (forall z : Z,
      exists rs w',
        OrchestrationService.runWithConcurrencyLimit
          (ContainerService.dispatch host jobName cc) (ContainerService.settle host)
          sched matrix (JsNumber.ofZ z) w = Returned rs w'
        /\ indexCorresponding jobName matrix rs)
  /\ (forall z : Z,
         (z <= 1)%Z ->
         OrchestrationService.runWithConcurrencyLimit
           (ContainerService.dispatch host jobName cc) (ContainerService.settle host)
           sched matrix (JsNumber.ofZ z) w
         = OrchestrationService.runWithConcurrencyLimit
             (ContainerService.dispatch host jobName cc) (ContainerService.settle host)
             sched matrix (JsNumber.ofZ 1) w)
  /\ (forall limit : JsNum,
         match JsNumber.arrayLength
                 (JsNumber.min (JsNumber.max (JsNumber.ofZ 1) limit)
                               (JsNumber.ofNat (List.length matrix))) with
         | None =>
             OrchestrationService.runWithConcurrencyLimit
               (ContainerService.dispatch host jobName cc) (ContainerService.settle host)
               sched matrix limit w
             = Raised (JsError "Invalid array length") w
         | Some lanes =>
             exists rs w',
               OrchestrationService.runWithConcurrencyLimit
                 (ContainerService.dispatch host jobName cc)
                 (ContainerService.settle host) sched matrix limit w
               = Returned rs w'
               /\ indexCorresponding jobName matrix rs
         end).
Proof.
  split; [|split].
  - intros z. destruct (startAll_run host jobName cc sched matrix z w)
      as (rs & w' & Hrun & Hslots).
    exists rs, w'. split; [exact Hrun|].
    now apply slotsFilled_indexCorresponding.
  - intros z. apply runWithConcurrencyLimit_below_one.
  - intros limit. pose proof (startAll_any host jobName cc sched matrix limit w) as H.
    destruct (JsNumber.arrayLength _) as [n|]; [|exact H].
    destruct H as (rs & w' & Hrun & Hslots).
    exists rs, w'. split; [exact Hrun|].
    now apply slotsFilled_indexCorresponding.
Qed.

(** Three cells under the limit 2, resumed last lane first. *)
Lemma runWithConcurrencyLimit_index_correspondence_witness :
  exists rs w',
    OrchestrationService.runWithConcurrencyLimit
      (ContainerService.dispatch sampleHost "job" (sampleConfig (Some "repo:v1")))
      (ContainerService.settle sampleHost)
      (fun _ => 1%nat) sampleMatrix (JsNumber.ofZ 2) emptyWorld = Returned rs w'
    /\ List.length rs = 3%nat
    /\ exists r, rs !! 1%nat = Some (Some r) /\ config r = mkTestConfig "qa" "mobile".
Proof.
  destruct (proj1 (runWithConcurrencyLimit_index_correspondence
                     sampleHost "job" (sampleConfig (Some "repo:v1"))
                     (fun _ => 1%nat) sampleMatrix emptyWorld) 2)
    as (rs & w' & Hrun & Hlen & Hslots).
  exists rs, w'. split; [exact Hrun|]. split; [exact Hlen|].
  assert (Hi : sampleMatrix !! 1%nat = Some (mkTestConfig "qa" "mobile")) by reflexivity.
  destruct (Hslots 1%nat (mkTestConfig "qa" "mobile") Hi) as (r & Hr & Hc & _).
  exists r. split; [exact Hr | exact Hc].
Defined.

(** ** Running effectful code *)

Section EffFacts.

Context {A B : Type}.
Implicit Types (k : A -> M B) (w : World).

Lemma bind_ret (a : A) k w : Eff.bind (Eff.ret a) k w = k a w.
Proof. reflexivity. Qed.

Lemma bind_lift_inr (a : A) k w : Eff.bind (Eff.lift (inr a)) k w = k a w.
Proof. reflexivity. Qed.

Lemma bind_returned (c : M A) k w a w' :
  c w = Returned a w' -> Eff.bind c k w = k a w'.
Proof. intros H. unfold Eff.bind. now rewrite H. Qed.

Lemma tryCatch_returned (c : M A) h w a w' :
  c w = Returned a w' -> Eff.tryCatch c h w = Returned a w'.
Proof. intros H. unfold Eff.tryCatch. now rewrite H. Qed.

End EffFacts.

Lemma bind_log {B} s (k : unit -> M B) w :
  Eff.bind (Eff.log s) k w = k tt (logged w [LogLine s]).
Proof. reflexivity. Qed.

Lemma logAll_run lines w :
  OrchestrationService.logAll lines w = Returned tt (logged w (List.map LogLine lines)).
Proof.
  revert w. induction lines as [|l lines IH]; intros w.
  - simpl. unfold Eff.ret. now rewrite logged_nil.
  - change (OrchestrationService.logAll (l :: lines))
      with (Eff.bind (Eff.log l) (fun _ => OrchestrationService.logAll lines)).
    rewrite bind_log, IH, logged_logged. reflexivity.
Qed.

Lemma bind_logAll {B} lines (k : unit -> M B) w :
  Eff.bind (OrchestrationService.logAll lines) k w
  = k tt (logged w (List.map LogLine lines)).
Proof. apply bind_returned, logAll_run. Qed.

Section EffClockFacts.

Context {B : Type}.
Variable host : Host.

Lemma bind_readClock (k : Z -> M B) w :
  Eff.bind (Eff.readClock host) k w = k (dateNow host (reads w)) (ticked w).
Proof. reflexivity. Qed.

Lemma bind_isoNow (k : string -> M B) w :
  Eff.bind (Eff.isoNow host) k w
  = k (toISOString host (dateNow host (reads w))) (ticked w).
Proof. reflexivity. Qed.

End EffClockFacts.

Ltac eff_step :=
  first [ rewrite bind_log | rewrite bind_logAll | rewrite bind_readClock
        | rewrite bind_isoNow | rewrite bind_ret | rewrite bind_lift_inr ];
  cbv beta.

Section Summary.

Import OrchestrationService.

Lemma summarize_run host startTime jobName rs w :
  exists report w',
    summarize host startTime jobName rs w = Returned report w'
    /\ calls w' = calls w
    /\ Response.executions report = rs
    /\ Response.totalExecutions report = List.length rs
    /\ Response.successful report = List.length (jsFilter (fun r => success r) rs)
    /\ Response.failed report = List.length (jsFilter (fun r => negb (success r)) rs)
    /\ Response.success report = (Response.failed report =? 0)%nat
    /\ Response.message report
       = (if (Response.failed report =? 0)%nat
          then "All executions started successfully"
          else showNat (Response.failed report) ++ " execution(s) failed to start")%string
    /\ exists tail,
        logs w' = logs w ++ List.map LogLine (summaryLines jobName rs) ++ tail
        /\ Forall (fun e => exists t, e = LogLine t
                                      /\ JsString.startsWith "⚠" t = false) tail.
Proof.
  unfold summarize. repeat eff_step. unfold Eff.ret.
  eexists _, _. split; [reflexivity|]. simpl.
  do 7 (split; [reflexivity|]).
  eexists. split; [rewrite <- List.app_assoc; reflexivity|].
  repeat constructor; eexists; (split; [reflexivity|]); reflexivity.
Qed.

End Summary.

Section Run.

Import OrchestrationService.

(** With the configuration resolved, a run is the scheduler over the
    matrix followed by the summary of its results. *)
Lemma executeTests_run host cs sched testConfigs w matrix cc jobName limit :
  resolvedMatrix cs testConfigs = inr matrix ->
  getContainerConfig cs = inr cc ->
  getContainerAppsJobName cs = inr jobName ->
  getConcurrencyLimit cs = inr limit ->
  exists w0,
    calls w0 = calls w
    /\ forall rs w1 report w',
        runWithConcurrencyLimit
          (ContainerService.dispatch host jobName cc) (ContainerService.settle host)
          sched matrix limit w0 = Returned rs w1 ->
        summarize host (dateNow host (reads w)) jobName rs w1 = Returned report w' ->
        executeTests host cs sched testConfigs w = Returned report w'.
Proof.
  intros Hm Hc Hj Hl. unfold executeTests.
  rewrite Hc, Hj, Hl.
  destruct testConfigs as [[|c rest]|]; simpl in Hm;
    [rewrite Hm | injection Hm as <- | rewrite Hm];
    (eexists; split;
     [|intros rs w1 report w' Hrun Hsum;
       repeat eff_step; apply tryCatch_returned;
       repeat eff_step;
       rewrite (bind_returned _ _ _ _ _ Hrun); exact Hsum]);
    reflexivity.
Qed.

End Run.

Section RunEvaluation.

Import OrchestrationService.

Lemma tryCatch_raised {A} (c : M A) h w e w1 :
  c w = Raised e w1 -> Eff.tryCatch c h w = h e w1.
Proof. intros H. unfold Eff.tryCatch. now rewrite H. Qed.

Lemma bind_lift_inl {A B} e (k : A -> M B) w :
  Eff.bind (Eff.lift (inl e)) k w = Raised e w.
Proof. reflexivity. Qed.

(** A run, case by case: configuration that does not resolve is thrown
    on; otherwise the scheduler runs over the matrix, and either its
    results are summarized or what it throws is logged and thrown on. *)
Lemma executeTests_eval host cs sched testConfigs w :
  match resolveAll cs testConfigs with
  | inl e => exists w1, executeTests host cs sched testConfigs w = Raised e w1
  | inr (matrix, cc, jobName, limit) =>
      exists w0,
        calls w0 = calls w
        /\ executeTests host cs sched testConfigs w
           = match runWithConcurrencyLimit
                     (ContainerService.dispatch host jobName cc)
                     (ContainerService.settle host) sched matrix limit w0 with
             | Returned rs w1 => summarize host (dateNow host (reads w)) jobName rs w1
             | Raised e w1 =>
                 Raised e (logged w1 [ErrorLine "Fatal error in orchestration:" e])
             | OutOfFuel => OutOfFuel
             end
  end.
Proof.
  unfold resolveAll, Exc.bind, Exc.ret.
  destruct (resolvedMatrix cs testConfigs) as [e|matrix] eqn:Hm;
    [|destruct (getContainerConfig cs) as [e|cc] eqn:Hc;
      [|destruct (getContainerAppsJobName cs) as [e|jobName] eqn:Hj;
        [|destruct (getConcurrencyLimit cs) as [e|limit] eqn:Hl]]].
  all: unfold executeTests; rewrite ?Hc, ?Hj, ?Hl.
  all: destruct testConfigs as [[|c rest]|]; simpl in Hm;
    try discriminate Hm; try rewrite Hm; try (injection Hm as <-).
  all: repeat eff_step.
  1-11: eexists; erewrite tryCatch_raised; [reflexivity|];
    repeat eff_step; reflexivity.
  all: eexists; split; [|unfold Eff.tryCatch at 1; repeat eff_step; unfold Eff.bind at 1].
  1, 3, 5: shelve.
  all: lazymatch goal with
       | |- ?L = ?R =>
           lazymatch L with
           | context [runWithConcurrencyLimit _ _ _ _ _ ?W0] =>
               lazymatch R with
               | context [runWithConcurrencyLimit _ _ _ _ _ ?E] => unify E W0
               end
           end
       end.
  all: match goal with
       | |- context [runWithConcurrencyLimit ?b ?r ?s ?m ?l ?w0] =>
           destruct (runWithConcurrencyLimit b r s m l w0) as [rs w1|e w1|];
           [|reflexivity|reflexivity]
       end.
  all: match goal with
       | |- context [summarize ?h ?t ?j ?rs ?w1] =>
           destruct (summarize_run h t j rs w1) as (report & w' & -> & _)
       end; reflexivity.
  Unshelve. all: reflexivity.
Qed.

End RunEvaluation.

(** ** The report *)

Section Report.

Import OrchestrationService.

Lemma jsFilter_length_le {A} (p : A -> bool) rs :
  (List.length (jsFilter p rs) <= List.length rs)%nat.
Proof.
  induction rs as [|[a|] rs IH]; simpl; [lia| |lia].
  destruct (p a); simpl; lia.
Qed.

(** Without holes every slot is counted once, as a success or as a
    failure. *)
Lemma jsFilter_partition {A} (p : A -> bool) rs :
  Forall (fun o => o <> None) rs ->
  (List.length (jsFilter p rs) + List.length (jsFilter (fun a => negb (p a)) rs)
   = List.length rs)%nat.
Proof.
  induction 1 as [|[a|] rs Ha _ IH]; simpl; [reflexivity| |congruence].
  destruct (p a); simpl; lia.
Qed.

Lemma slotsFilled_present {TItem TResult} (post : TItem -> TResult -> Prop) items rs :
  slotsFilled post items rs -> Forall (fun o => o <> None) rs.
Proof.
  intros [Hlen Hslots]. apply Forall_lookup. intros i o Hi.
  assert (Hlt : (i < List.length items)%nat).
  { rewrite <- Hlen. now apply lookup_lt_Some in Hi. }
  apply lookup_lt_is_Some_2 in Hlt as [item Hitem].
  destruct (Hslots i item Hitem) as (r & Hr & _). congruence.
Qed.

End Report.

(** C9.  Every report a run returns is over as many results as the
    resolved matrix has cells, one per cell, with successful + failed =
    total, success exactly when failed is 0, and the message "All
    executions started successfully" when failed is 0 and else "<failed>
    execution(s) failed to start".  A run whose configuration resolves,
    with an integer limit, does return a report.  The summary of three
    results of which exactly the second failed has total 3, successful 2,
    failed 1, no success and a message with "1" in it. *)
Theorem executeTests_report host cs sched testConfigs w :
  (forall report w',
      OrchestrationService.executeTests host cs sched testConfigs w = Returned report w' ->
      (OrchestrationService.Response.successful report
       + OrchestrationService.Response.failed report
       = OrchestrationService.Response.totalExecutions report)%nat
      /\ OrchestrationService.Response.success report
         = (OrchestrationService.Response.failed report =? 0)%nat
      /\ OrchestrationService.Response.message report
         = (if (OrchestrationService.Response.failed report =? 0)%nat
            then "All executions started successfully"
            else showNat (OrchestrationService.Response.failed report)
                 ++ " execution(s) failed to start")%string
      /\ OrchestrationService.Response.totalExecutions report
         = List.length (OrchestrationService.Response.executions report)
      /\ OrchestrationService.Response.successful report
         = List.length (OrchestrationService.jsFilter (fun r => success r)
                          (OrchestrationService.Response.executions report))
      /\ OrchestrationService.Response.failed report
         = List.length (OrchestrationService.jsFilter (fun r => negb (success r))
                          (OrchestrationService.Response.executions report))
      /\ exists matrix cc jobName limit,
          resolveAll cs testConfigs = inr (matrix, cc, jobName, limit)
          /\ indexCorresponding jobName matrix
               (OrchestrationService.Response.executions report))
  /\ (forall matrix cc jobName (z : Z),
         resolveAll cs testConfigs = inr (matrix, cc, jobName, JsNumber.ofZ z) ->
         exists report w',
           OrchestrationService.executeTests host cs sched testConfigs w
           = Returned report w')
  /\ (forall startTime jobName r1 r2 r3 w0,
         success r1 = true -> success r2 = false -> success r3 = true ->
         exists report w',
           OrchestrationService.summarize host startTime jobName
             [Some r1; Some r2; Some r3] w0 = Returned report w'
           /\ OrchestrationService.Response.totalExecutions report = 3%nat
           /\ OrchestrationService.Response.successful report = 2%nat
           /\ OrchestrationService.Response.failed report = 1%nat
           /\ OrchestrationService.Response.success report = false
           /\ OrchestrationService.Response.message report
              = "1 execution(s) failed to start"
           /\ JsString.includes "1" (OrchestrationService.Response.message report) = true).
Proof.
  pose proof (executeTests_eval host cs sched testConfigs w) as Heval.
  split; [|split].
  - intros report w' Hret.
    destruct (resolveAll cs testConfigs) as [e|[[[matrix cc] jobName] limit]].
    { destruct Heval as (w1 & Heval). congruence. }
    destruct Heval as (w0 & _ & Heval). rewrite Heval in Hret.
    pose proof (startAll_any host jobName cc sched matrix limit w0) as Hrun.
    destruct (JsNumber.arrayLength _) as [n|].
    2: { rewrite Hrun in Hret. discriminate. }
    destruct Hrun as (rs & w1 & Hrun & Hslots). rewrite Hrun in Hret.
    destruct (summarize_run host (dateNow host (reads w)) jobName rs w1)
      as (report0 & w0' & Hsum & _ & Hex & Htot & Hs & Hf & Hsucc & Hmsg & _).
    rewrite Hsum in Hret. injection Hret as <- <-.
    rewrite Hex.
    split; [rewrite Hs, Hf, Htot; apply jsFilter_partition;
            now apply slotsFilled_present in Hslots|].
    do 5 (split; [assumption|]).
    exists matrix, cc, jobName, limit. split; [reflexivity|].
    now apply slotsFilled_indexCorresponding.
  - intros matrix cc jobName z Hres. rewrite Hres in Heval.
    destruct Heval as (w0 & _ & Heval).
    destruct (startAll_run host jobName cc sched matrix z w0) as (rs & w1 & Hrun & _).
    rewrite Hrun in Heval.
    destruct (summarize_run host (dateNow host (reads w)) jobName rs w1)
      as (report & w' & Hsum & _).
    exists report, w'. now rewrite Heval.
  - intros startTime jobName r1 r2 r3 w0 H1 H2 H3.
    destruct (summarize_run host startTime jobName [Some r1; Some r2; Some r3] w0)
      as (report & w' & Hsum & _ & _ & Htot & Hs & Hf & Hsucc & Hmsg & _).
    simpl in Hs, Hf. rewrite H1, H2, H3 in Hs, Hf. simpl in Hs, Hf.
    rewrite Hf in Hsucc, Hmsg. simpl in Hsucc, Hmsg.
    exists report, w'. rewrite Hmsg. repeat split; auto.
Qed.

(** A run over three cells whose second start call is refused. *)
Lemma executeTests_report_witness :
  exists report w',
    OrchestrationService.executeTests sampleHost sampleService (fun _ => 1%nat)
      (Some sampleMatrix) emptyWorld = Returned report w'
    /\ (OrchestrationService.Response.successful report
        + OrchestrationService.Response.failed report
        = OrchestrationService.Response.totalExecutions report)%nat
    /\ OrchestrationService.Response.success report
       = (OrchestrationService.Response.failed report =? 0)%nat.
Proof.
  destruct (executeTests_report sampleHost sampleService (fun _ => 1%nat)
              (Some sampleMatrix) emptyWorld) as (Hinv & Hret & _).
  assert (Hres : resolveAll sampleService (Some sampleMatrix)
                 = inr (sampleMatrix, sampleConfig (Some "repo:v1"), "job",
                        JsNumber.ofZ 2)) by reflexivity.
  destruct (Hret _ _ _ _ Hres) as (report & w' & Hrun).
  destruct (Hinv report w' Hrun) as (Hsum & Hsucc & _).
  exists report, w'. split; [exact Hrun|]. split; [exact Hsum | exact Hsucc].
Defined.

(** The same run, evaluated: two successes and one failure. *)
Lemma executeTests_partial_failure :
  match OrchestrationService.executeTests sampleHost sampleService (fun _ => 1%nat)
          (Some sampleMatrix) emptyWorld with
  | Returned report _ =>
      OrchestrationService.Response.totalExecutions report = 3%nat
      /\ OrchestrationService.Response.successful report = 2%nat
      /\ OrchestrationService.Response.failed report = 1%nat
      /\ OrchestrationService.Response.success report = false
      /\ OrchestrationService.Response.message report = "1 execution(s) failed to start"
      /\ List.map (option_map config) (OrchestrationService.Response.executions report)
         = List.map Some sampleMatrix
  | _ => False
  end.
Proof. vm_compute. repeat split. Qed.

Section Hint.

Import OrchestrationService.

Lemma jsFilter_full {A} (p : A -> bool) rs :
  List.length (jsFilter p rs) = List.length rs
  <-> forall o, In o rs -> exists a, o = Some a /\ p a = true.
Proof.
  induction rs as [|o rs IH]; simpl.
  - split; [intros _ o [] | reflexivity].
  - pose proof (jsFilter_length_le p rs) as Hle.
    destruct o as [a|]; [destruct (p a) eqn:Hp|]; simpl.
    + split.
      * intros H o [<-|Hin]; [now exists a|]. apply IH; [lia | exact Hin].
      * intros H. f_equal. apply IH. intros o Hin. apply H. now right.
    + split; [lia|]. intros H.
      destruct (H (Some a) (or_introl eq_refl)) as (a' & Ha & Hp').
      injection Ha as <-. congruence.
    + split; [lia|]. intros H.
      destruct (H None (or_introl eq_refl)) as (a' & Ha & _). discriminate.
Qed.

Lemma jsSome_map {A B} (f : A -> B) (p : B -> bool) rs :
  jsSome p (List.map (option_map f) rs) = true
  <-> exists a, In (Some a) rs /\ p (f a) = true.
Proof.
  induction rs as [|[a|] rs IH]; simpl.
  - split; [discriminate | intros (a & [] & _)].
  - rewrite orb_true_iff, IH. split.
    + intros [H|(b & Hin & Hb)]; [exists a; auto | exists b; auto].
    + intros (b & [Heq|Hin] & Hb); [injection Heq as ->; now left | right; now exists b].
  - rewrite IH. split.
    + intros (b & Hin & Hb). exists b; auto.
    + intros (b & [Heq|Hin] & Hb); [discriminate | now exists b].
Qed.

(** When the hint is due. *)
Lemma hintDue_spec rs :
  hintDue rs (List.length (jsFilter (fun r => negb (success r)) rs)) = true
  <-> rs <> [] /\ allFailed rs /\ someJobNotFound rs.
Proof.
  unfold hintDue, allFailed, someJobNotFound, jobNotFound.
  destruct (Nat.ltb_spec 0 (List.length rs)) as [Hlen|Hlen]; simpl.
  - destruct (Nat.eqb_spec (List.length (jsFilter (fun r => negb (success r)) rs))
                           (List.length rs)) as [Hall|Hall].
    + rewrite jsSome_map. rewrite jsFilter_full in Hall. split.
      * intros Hsome. split; [now destruct rs|]. split; [|exact Hsome].
        intros o Hin. destruct (Hall o Hin) as (r & -> & Hr).
        exists r. split; [reflexivity|]. now apply negb_true_iff.
      * now intros (_ & _ & Hsome).
    + split; [discriminate|]. intros (_ & Hf & _). exfalso. apply Hall.
      apply jsFilter_full. intros o Hin. destruct (Hf o Hin) as (r & -> & Hr).
      exists r. split; [reflexivity|]. now rewrite Hr.
  - split; [discriminate|]. intros (Hne & _). destruct rs; [congruence|simpl in Hlen; lia].
Qed.

Lemma not_headline lines :
  Forall plainLine lines -> ~ In hintHeadline (List.map LogLine lines).
Proof.
  intros Hall Hin. apply List.in_map_iff in Hin as (t & Ht & Hin).
  rewrite List.Forall_forall in Hall. specialize (Hall t Hin).
  injection Ht as ->. discriminate Hall.
Qed.

(** The headline of the hint is among the lines of the summary exactly
    when the hint is due. *)
Lemma summaryLines_headline jobName rs :
  In hintHeadline (List.map LogLine (summaryLines jobName rs))
  <-> hintDue rs (List.length (jsFilter (fun r => negb (success r)) rs)) = true.
Proof.
  unfold summaryLines. simpl List.concat. rewrite List.app_nil_r.
  set (failed := List.length (jsFilter (fun r => negb (success r)) rs)).
  assert (Hfail : Forall plainLine
             (if (0 <? failed)%nat
              then "Failed Executions:"
                   :: List.map failureLine (jsFilter (fun r => negb (success r)) rs)
              else [])).
  { destruct (0 <? failed)%nat; [|constructor].
    constructor; [reflexivity|]. apply List.Forall_forall.
    intros t Ht. apply List.in_map_iff in Ht as (r & <- & _). reflexivity. }
  rewrite !List.map_cons, List.map_app. simpl In. rewrite List.in_app_iff.
  split.
  - intros [H|[H|[H|[H|[H|[H|[H|H]]]]]]]; try discriminate H.
    + now apply not_headline in H.
    + destruct (hintDue rs failed); [reflexivity | destruct H].
  - intros ->. do 7 right. simpl. right. now left.
Qed.

End Hint.

(** C5, as the code has it.  The summary logs the operator hint exactly
    when the result list is not empty, every result failed, and the error
    text of at least one of them, lower-cased, holds "microsoft.app/jobs"
    together with "not found" or "resourcenotfound".  The report's
    success, successful, failed and total are the same for any other
    result list with the same success flags, whatever its error texts and
    whether or not the hint is logged for it. *)
Theorem summarize_hint host startTime jobName rs w :
  exists report w' added,
    OrchestrationService.summarize host startTime jobName rs w = Returned report w'
    /\ logs w' = logs w ++ added
    /\ (In hintHeadline added <-> rs <> [] /\ allFailed rs /\ someJobNotFound rs)
    /\ forall rs2 w2,
        flags rs2 = flags rs ->
        exists report2 w2',
          OrchestrationService.summarize host startTime jobName rs2 w2
          = Returned report2 w2'
          /\ OrchestrationService.Response.success report2
             = OrchestrationService.Response.success report
          /\ OrchestrationService.Response.successful report2
             = OrchestrationService.Response.successful report
          /\ OrchestrationService.Response.failed report2
             = OrchestrationService.Response.failed report
          /\ OrchestrationService.Response.totalExecutions report2
             = OrchestrationService.Response.totalExecutions report.
Proof.
  destruct (summarize_run host startTime jobName rs w)
    as (report & w' & Hsum & _ & _ & Htot & Hs & Hf & Hsucc & _ & tail & Hlogs & Htail).
  exists report, w', (List.map LogLine (OrchestrationService.summaryLines jobName rs) ++ tail).
  split; [exact Hsum|]. split; [exact Hlogs|]. split.
  - rewrite <- hintDue_spec, <- summaryLines_headline, List.in_app_iff.
    split; [|intros H; left; exact H]. intros [H|H]; [exact H|]. exfalso.
    rewrite List.Forall_forall in Htail.
    destruct (Htail _ H) as (t & Ht & Hplain). injection Ht as <-. discriminate Hplain.
  - intros rs2 w2 Hflags.
    destruct (summarize_run host startTime jobName rs2 w2)
      as (report2 & w2' & Hsum2 & _ & _ & Htot2 & Hs2 & Hf2 & Hsucc2 & _).
    exists report2, w2'. split; [exact Hsum2|].
    assert (Hcount : forall p : bool -> bool,
               List.length (OrchestrationService.jsFilter (fun r => p (success r)) rs2)
               = List.length (OrchestrationService.jsFilter (fun r => p (success r)) rs)).
    { intros p. clear -Hflags. unfold flags in Hflags.
      revert rs Hflags. induction rs2 as [|o2 rs2 IH]; intros [|o rs] H;
        try discriminate; [reflexivity|].
      simpl in H. injection H as Ho H.
      destruct o2 as [r2|], o as [r|]; try discriminate; simpl.
      - injection Ho as ->. destruct (p (success r)); simpl; rewrite (IH rs H); reflexivity.
      - now apply IH. }
    assert (Hfailed : OrchestrationService.Response.failed report2
                      = OrchestrationService.Response.failed report).
    { rewrite Hf2, Hf. apply (Hcount negb). }
    split; [rewrite Hsucc2, Hsucc, Hfailed; reflexivity|].
    split; [rewrite Hs2, Hs; apply (Hcount (fun b => b))|].
    split; [exact Hfailed|].
    rewrite Htot2, Htot. unfold flags in Hflags.
    rewrite <- (List.length_map (option_map success) rs2), Hflags.
    apply List.length_map.
Qed.

(** The summary of two failures of which one names the missing job. *)
Lemma summarize_hint_witness :
  exists report w' added,
    OrchestrationService.summarize sampleHost 0 "job" mixedFailures emptyWorld
    = Returned report w'
    /\ logs w' = added
    /\ In hintHeadline added.
Proof.
  destruct (summarize_hint sampleHost 0 "job" mixedFailures emptyWorld)
    as (report & w' & added & Hrun & Hlogs & Hhint & _).
  exists report, w', added. split; [exact Hrun|]. split; [exact Hlogs|].
  apply Hhint. split; [discriminate|]. split.
  - intros o [<-|[<-|[]]]; eexists; split; reflexivity.
  - eexists. split; [left; reflexivity | reflexivity].
Defined.

(** C5, as the claim has it, fails: for two failed results of which only
    the first names the missing job, and for no results at all, "the hint
    is logged exactly when every result failed and every error names the
    missing job" is false. *)
Lemma summarize_hint_not_every :
  (exists report w',
      OrchestrationService.summarize sampleHost 0 "job" mixedFailures emptyWorld
      = Returned report w'
      /\ ~ (In hintHeadline (logs w')
            <-> allFailed mixedFailures /\ everyJobNotFound mixedFailures))
  /\ (exists report w',
         OrchestrationService.summarize sampleHost 0 "job" [] emptyWorld
         = Returned report w'
         /\ ~ (In hintHeadline (logs w') <-> allFailed [] /\ everyJobNotFound [])).
Proof.
  split.
  - eexists _, _. split; [vm_compute; reflexivity|].
    intros [Hto _].
    assert (Hin : In hintHeadline
      (logs (match OrchestrationService.summarize sampleHost 0 "job" mixedFailures emptyWorld
             with Returned _ w' => w' | _ => emptyWorld end))).
    { vm_compute. do 10 right. left. reflexivity. }
    destruct (Hto Hin) as [_ Hevery].
    specialize (Hevery _ (or_intror (or_introl eq_refl))). discriminate Hevery.
  - eexists _, _. split; [vm_compute; reflexivity|].
    intros [_ Hfrom].
    assert (Hin : In hintHeadline
      (logs (match OrchestrationService.summarize sampleHost 0 "job" [] emptyWorld
             with Returned _ w' => w' | _ => emptyWorld end))).
    { apply Hfrom. split; [intros o []|intros r []]. }
    vm_compute in Hin.
    repeat (destruct Hin as [Hin|Hin]; [discriminate Hin|]). exact Hin.
Qed.

(** ** The empty matrix *)

Section EmptyMatrix.

Import OrchestrationService.

(** Over no items no lane is created, whatever number the limit is. *)
Lemma laneCount_empty limit :
  limit <> NaN ->
  JsNumber.arrayLength
    (JsNumber.min (JsNumber.max (JsNumber.ofZ 1) limit) (JsNumber.ofNat 0))
  = Some 0%nat.
Proof.
  intros Hl. destruct limit as [| | |q]; [congruence|reflexivity|reflexivity|].
  unfold JsNumber.ofNat, JsNumber.ofZ, JsNumber.max.
  change (Z.of_nat 0) with 0%Z.
  destruct (Qle_bool (inject_Z 1) q) eqn:H1; [|reflexivity].
  unfold JsNumber.min.
  destruct (Qle_bool q (inject_Z 0)) eqn:H0; [|reflexivity].
  exfalso. apply Qle_bool_iff in H1, H0.
  pose proof (Qle_trans _ _ _ H1 H0) as H. now apply H.
Qed.

Lemma runWithConcurrencyLimit_empty
      {TItem TResult Pend : Type} (begin_ : TItem -> M Pend) (resume : Pend -> M TResult)
      sched limit w :
  limit <> NaN ->
  runWithConcurrencyLimit begin_ resume sched [] limit w = Returned [] w.
Proof.
  intros Hl. unfold runWithConcurrencyLimit.
  change (List.length (@nil TItem)) with 0%nat.
  rewrite (laneCount_empty _ Hl). reflexivity.
Qed.

End EmptyMatrix.

(** C10.  When the matrix resolves to the empty list (and the rest of the
    configuration resolves, to a limit that is a number), no lane is
    created and no start call is made, and the run returns a report with
    total, successful and failed 0, success true, the message "All
    executions started successfully" and no executions. *)
Theorem executeTests_empty_matrix host cs sched testConfigs w cc jobName limit :
  resolvedMatrix cs testConfigs = inr [] ->
  OrchestrationService.getContainerConfig cs = inr cc ->
  OrchestrationService.getContainerAppsJobName cs = inr jobName ->
  OrchestrationService.getConcurrencyLimit cs = inr limit ->
  limit <> NaN ->
  JsNumber.arrayLength
    (JsNumber.min (JsNumber.max (JsNumber.ofZ 1) limit) (JsNumber.ofNat 0))
  = Some 0%nat
  /\ exists report w',
      OrchestrationService.executeTests host cs sched testConfigs w = Returned report w'
      /\ calls w' = calls w
      /\ OrchestrationService.Response.totalExecutions report = 0%nat
      /\ OrchestrationService.Response.successful report = 0%nat
      /\ OrchestrationService.Response.failed report = 0%nat
      /\ OrchestrationService.Response.success report = true
      /\ OrchestrationService.Response.message report
         = "All executions started successfully"
      /\ OrchestrationService.Response.executions report = [].
Proof.
  intros Hm Hc Hj Hl Hnan. split; [now apply laneCount_empty|].
  destruct (executeTests_run host cs sched testConfigs w [] cc jobName limit Hm Hc Hj Hl)
    as (w0 & Hcalls & Hexec).
  destruct (summarize_run host (dateNow host (reads w)) jobName [] w0)
    as (report & w' & Hsum & Hcalls' & Hex & Htot & Hs & Hf & Hsucc & Hmsg & _).
  exists report, w'.
  split; [apply Hexec with [] w0;
          [now apply runWithConcurrencyLimit_empty | exact Hsum]|].
  split; [congruence|].
  simpl in Htot, Hs, Hf. rewrite Hf in Hsucc, Hmsg. simpl in Hsucc, Hmsg.
  repeat split; assumption.
Qed.

(** The ConfigService resolves no cell: neither a custom matrix nor the
    settings name one; the limit is the one of the real resolver. *)
Lemma executeTests_empty_matrix_witness :
  exists report w',
    OrchestrationService.executeTests sampleHost
      {| OrchestrationService.getTestMatrix :=
           ConfigService.getTestMatrix (clientOf "," "web") ∅;
         OrchestrationService.getContainerConfig := inr (sampleConfig (Some "repo:v1"));
         OrchestrationService.getContainerAppsJobName := inr "job";
         OrchestrationService.getConcurrencyLimit :=
           inr (ConfigService.getConcurrencyLimitDefault (clientOf "," "web") ∅) |}
      (fun _ => 0%nat) None emptyWorld = Returned report w'
    /\ calls w' = []
    /\ OrchestrationService.Response.totalExecutions report = 0%nat
    /\ OrchestrationService.Response.success report = true.
Proof.
  destruct (executeTests_empty_matrix sampleHost
              {| OrchestrationService.getTestMatrix :=
                   ConfigService.getTestMatrix (clientOf "," "web") ∅;
                 OrchestrationService.getContainerConfig :=
                   inr (sampleConfig (Some "repo:v1"));
                 OrchestrationService.getContainerAppsJobName := inr "job";
                 OrchestrationService.getConcurrencyLimit :=
                   inr (ConfigService.getConcurrencyLimitDefault (clientOf "," "web") ∅) |}
              (fun _ => 0%nat) None emptyWorld (sampleConfig (Some "repo:v1")) "job"
              (ConfigService.getConcurrencyLimitDefault (clientOf "," "web") ∅)
              eq_refl eq_refl eq_refl eq_refl)
    as (_ & report & w' & Hrun & Hcalls & Htot & _ & _ & Hsucc & _).
  - vm_compute. discriminate.
  - exists report, w'. repeat split; assumption.
Defined.

(** ** A fractional limit *)

(** C6, at the input that defeats it.  With "2.5" in ORCH_CONCURRENCY_LIMIT
    the resolver returns 2.5, which is within the bounds and is not an
    integer; handed to the scheduler with three items, it makes the
    creation of the lanes fail with a RangeError. *)
Theorem getConcurrencyLimit_fractional :
  ConfigService.getConcurrencyLimit (clientOf "" "")
    {[ "ORCH_CONCURRENCY_LIMIT" := "2.5" ]} (JsNumber.ofZ 10) = Fin (5 # 2)
  /\ JsNumber.isInteger (Fin (5 # 2)) = false
  /\ forall (host : Host) jobName cc sched w,
      OrchestrationService.runWithConcurrencyLimit
        (ContainerService.dispatch host jobName cc) (ContainerService.settle host)
        sched sampleMatrix (Fin (5 # 2)) w
      = Raised (JsError "Invalid array length") w.
Proof.
  split; [vm_compute; reflexivity|]. split; [reflexivity|].
  intros host jobName cc sched w. reflexivity.
Qed.
